(** * EmmaPython: the member model and the Requests transport adapter

    A shallow embedding of [myemma/model/member.py] and
    [myemma/adapter/requests_adapter.py].  Python dictionaries are finite
    maps ([gmap]), exceptions are an explicit error type, and the methods
    that talk to the transport run in a small state-and-exception monad
    whose state holds the member, the remote side and the log of the
    transport calls issued so far. *)

From stdpp Require Import gmap strings list fin_maps pretty.
From Stdlib Require Import ZArith.

Open Scope Z_scope.

(** * Python values *)

(** The names imported by [from status import Status, Active, Error,
    Forwarded, OptOut]. *)
Inductive Status := Active | Error | Forwarded | OptOut.

#[global] Instance Status_eq_dec : EqDecision Status.
Proof. solve_decision. Defined.

(** The objects the modelled code handles: decoded JSON (floats are not
    modelled) and the [Status] singletons that [_parse_raw] stores in a
    member. *)
#[warnings="-register-all"]
Inductive value :=
| VNone
| VBool (b : bool)
| VInt (z : Z)
| VStr (s : string)
| VStatus (s : Status)
| VList (l : list value)
| VDict (d : gmap string value).

(** What [requests] hands back: [response.status_code] and the
    [response.json] attribute (the decoded body, [None] when there is
    none). *)
Record response := Response { status_code : Z; json : value }.

Inductive exn :=
| NoMemberEmailError
| NoMemberIdError
| NoMemberStatusError
| MemberUpdateError
| ApiRequestFailed (r : response)
| KeyError (k : string)
| TypeError
| NotModelled.

Inductive result (A : Type) :=
| Ok (a : A)
| Raise (e : exn).
Arguments Ok {A} a.
Arguments Raise {A} e.

Definition rbind {A B} (r : result A) (k : A → result B) : result B :=
  match r with
  | Ok a => k a
  | Raise e => Raise e
  end.

Declare Scope result_scope.
Delimit Scope result_scope with res.
Notation "'let*' x ':=' c 'in' k" := (rbind c (λ x, k))
  (at level 10, x name, c at level 100, k at level 200) : result_scope.

(** [map f xs] for an [f] that can raise: stops at the first exception. *)
Fixpoint rmap {A B} (f : A → result B) (xs : list A) : result (list B) :=
  match xs with
  | [] => Ok []
  | x :: xs' =>
      (let* y := f x in let* ys := rmap f xs' in Ok (y :: ys))%res
  end.

(** [len(d)] and [bool(d)] of a dict. *)
Definition len {K A} `{Countable K} (d : gmap K A) : Z := Z.of_nat (size d).

Definition dict_bool {K A} `{Countable K} (d : gmap K A) : bool := negb (len d =? 0).

(** [bool(v)]: what [if v:] and [if not v:] test. *)
Definition truthy (v : value) : bool :=
  match v with
  | VNone => false
  | VBool b => b
  | VInt z => negb (z =? 0)
  | VStr s => negb (String.eqb s "")
  | VStatus _ => true
  | VList l => match l with [] => false | _ => true end
  | VDict d => dict_bool d
  end.

(** [v[k]] for a string key [k]: only a dict can be subscripted by one. *)
Definition subscript (v : value) (k : string) : result value :=
  match v with
  | VDict d => match d !! k with
               | Some x => Ok x
               | None => Raise (KeyError k)
               end
  | _ => Raise TypeError
  end.

(** [d[k]] on a dict held directly. *)
Definition getitem (d : gmap string value) (k : string) : result value :=
  match d !! k with
  | Some x => Ok x
  | None => Raise (KeyError k)
  end.

(** [k in d]. *)
Definition contains {K A} `{Countable K} (d : gmap K A) (k : K) : bool :=
  bool_decide (is_Some (d !! k)).

(** Iterating over a value, as [map(f, v)] does: a list yields its
    elements, a string its characters, a dict its keys; nothing else can
    be iterated. *)
Definition py_iter (v : value) : result (list value) :=
  match v with
  | VList l => Ok l
  | VStr s => Ok ((λ c, VStr (String c EmptyString)) <$> String.list_ascii_of_string s)
  | VDict d => Ok (VStr <$> (map_to_list d).*1)
  | _ => Raise TypeError
  end.

(** Keys of the collection caches.  Lists and dicts cannot be hashed;
    [True] and [False] hash and compare as [1] and [0]. *)
Inductive hkey :=
| KNone
| KInt (z : Z)
| KStr (s : string)
| KStatus (s : Status).

#[global] Instance hkey_eq_dec : EqDecision hkey.
Proof. solve_decision. Defined.

Definition Status_to_nat (s : Status) : nat :=
  match s with Active => 0 | Error => 1 | Forwarded => 2 | OptOut => 3 end%nat.

Definition Status_of_nat (n : nat) : Status :=
  match n with 0 => Active | 1 => Error | 2 => Forwarded | _ => OptOut end%nat.

#[global] Instance Status_countable : Countable Status.
Proof.
  apply (inj_countable' Status_to_nat Status_of_nat).
  by intros [].
Defined.

Definition hkey_to_sum (k : hkey) : unit + Z + string + Status :=
  match k with
  | KNone => inl (inl (inl ()))
  | KInt z => inl (inl (inr z))
  | KStr s => inl (inr s)
  | KStatus s => inr s
  end.

Definition hkey_of_sum (x : unit + Z + string + Status) : hkey :=
  match x with
  | inl (inl (inl _)) => KNone
  | inl (inl (inr z)) => KInt z
  | inl (inr s) => KStr s
  | inr s => KStatus s
  end.

#[global] Instance hkey_countable : Countable hkey.
Proof.
  apply (inj_countable' hkey_to_sum hkey_of_sum).
  by intros [].
Defined.

Definition hash_key (v : value) : result hkey :=
  match v with
  | VNone => Ok KNone
  | VBool b => Ok (KInt (Z.b2z b))
  | VInt z => Ok (KInt z)
  | VStr s => Ok (KStr s)
  | VStatus s => Ok (KStatus s)
  | VList _ | VDict _ => Raise TypeError
  end.

Definition key_value (k : hkey) : value :=
  match k with
  | KNone => VNone
  | KInt z => VInt z
  | KStr s => VStr s
  | KStatus s => VStatus s
  end.

(** [reduce(f, xs, init)] for an [f] that can raise. *)
Fixpoint reduce {A B} (f : A → B → result A) (xs : list B) (init : A) : result A :=
  match xs with
  | [] => Ok init
  | x :: xs' => (let* a := f init x in reduce f xs' a)%res
  end.

(** [dict(pairs)]: later pairs replace earlier ones with an equal key. *)
Definition py_dict (pairs : list (value * value)) : result (gmap hkey value) :=
  reduce (λ d kv, (let* k := hash_key kv.1 in Ok (<[k := kv.2]> d))%res) pairs ∅.

(** [dict(map(lambda x: (x[key], entity(x)), r))], the expression both
    collections build their cache with. *)
Definition dict_map (key : string) (entity : value → result value) (r : value)
  : result (gmap hkey value) :=
  (let* xs := py_iter r in
   let* pairs := rmap (λ x, let* k := subscript x key in
                            let* e := entity x in
                            Ok (k, e)) xs in
   py_dict pairs)%res.

(** [d.keys()] as a Python 2 list. *)
Definition keys (d : gmap hkey value) : value :=
  VList (key_value <$> (map_to_list d).*1).

(** * requests_adapter.py *)

Module RequestsAdapter.

(** A call into the [requests] library. *)
Inductive http_call :=
| requests_post (url : string) (data : string) (auth : string * string)
| requests_get (url : string) (params : value) (auth : string * string)
| requests_put (url : string) (params : value) (auth : string * string)
| requests_delete (url : string) (params : value) (auth : string * string).

Record t := { auth : string * string; url : string }.

(** [__init__]: the [auth] dict supplies the two keys and the account id
    that scopes the base URL. *)
Definition init (account_id public_key private_key : string) : t :=
  {| auth := (public_key, private_key);
     url := "https://api.e2ma.net/" +:+ account_id |}.

Definition _process_response (response : response) : result value :=
  if status_code response =? 404 then Ok VNone
  else if status_code response >? 200 then Raise (ApiRequestFailed response)
  else Ok (json response).

(** How a result relates to the status of the response it came from. *)
Definition by_status (res : result value) (r : response) : Prop :=
  (status_code r = 404 → res = Ok VNone) ∧
  (status_code r ≠ 404 → 200 < status_code r → res = Raise (ApiRequestFailed r)) ∧
  (status_code r ≤ 200 → res = Ok (json r)).

Section Methods.
(** The remote side: [requests] answers a call and the server moves on.
    [json_dumps] is [json.dumps]. *)
Context {W : Type}.
Variable requests : W → http_call → response * W.
Variable json_dumps : value → string.
Variable self : t.

Definition post (w : W) (path : string) (data : value) : result value * W :=
  let (r, w') := requests w (requests_post (url self +:+ path) (json_dumps data) (auth self)) in
  (_process_response r, w').

Definition get (w : W) (path : string) (params : value) : result value * W :=
  let (r, w') := requests w (requests_get (url self +:+ path) params (auth self)) in
  (_process_response r, w').

Definition put (w : W) (path : string) (params : value) : result value * W :=
  let (r, w') := requests w (requests_put (url self +:+ path) params (auth self)) in
  (_process_response r, w').

Definition delete (w : W) (path : string) (params : value) : result value * W :=
  let (r, w') := requests w (requests_delete (url self +:+ path) params (auth self)) in
  (_process_response r, w').

End Methods.

End RequestsAdapter.

(** * member.py *)

Module Member.

(** The calls the model issues on [self.account.adapter]; [adapter_put]
    carries [None] when the second argument is left out. *)
Inductive request :=
| adapter_get (path : string)
| adapter_post (path : string) (data : value)
| adapter_put (path : string) (params : option value).

(** What [member.py] uses and does not define.  [W] is the state of the
    remote side. *)
Record Deps (W : Type) := {
  (** [self.account.adapter]: any [AbstractAdapter]; it answers with a
      decoded value or raises, and the remote side moves on. *)
  adapter : W → request → result value * W;
  (** [self.account.fields.export_shortcuts()] *)
  export_shortcuts : list string;
  (** [Status.factory]; raising on a code it does not know *)
  Status_factory : value → result Status;
  (** [status.get_code()] *)
  get_code : Status → value;
  (** ['%s' % v] *)
  format_s : value → string;
  (** [Group(account, raw)] and [Mailing(account, raw)] *)
  Group : value → result value;
  Mailing : value → result value
}.
Arguments adapter {W} _ _ _.
Arguments export_shortcuts {W} _.
Arguments Status_factory {W} _ _.
Arguments get_code {W} _ _.
Arguments format_s {W} _ _.
Arguments Group {W} _ _.
Arguments Mailing {W} _ _.

(** A member with its two collections; [groups] and [mailings] hold the
    [_dict] of the respective collection. *)
Record t := {
  _dict : gmap string value;
  groups : gmap hkey value;
  mailings : gmap hkey value
}.

Record state (W : Type) := {
  self : t;
  remote : W;
  calls : list request
}.
Arguments self {W} _.
Arguments remote {W} _.
Arguments calls {W} _.

Definition M (W A : Type) : Type := state W → result A * state W.

Definition ret {W A} (a : A) : M W A := λ s, (Ok a, s).

Definition raise {W A} (e : exn) : M W A := λ s, (Raise e, s).

Definition bind {W A B} (c : M W A) (k : A → M W B) : M W B :=
  λ s, match c s with
       | (Ok a, s') => k a s'
       | (Raise e, s') => (Raise e, s')
       end.

Definition lift {W A} (r : result A) : M W A := λ s, (r, s).

Definition get_self {W} : M W t := λ s, (Ok (self s), s).

Definition set_self {W} (m : t) : M W unit :=
  λ s, (Ok (), {| self := m; remote := remote s; calls := calls s |}).

Declare Scope member_scope.
Delimit Scope member_scope with mem.
Notation "'let*' x ':=' c 'in' k" := (bind c (λ x, k))
  (at level 10, x name, c at level 100, k at level 200) : member_scope.

Definition is_status (s : Status) (v : value) : bool :=
  match v with
  | VStatus s' => bool_decide (s' = s)
  | _ => false
  end.

(** [raw.update(other)] for a mapping [other]; a value that cannot be
    iterated raises, and sequences of pairs are outside the model. *)
Definition update (raw : gmap string value) (other : value) : result (gmap string value) :=
  match other with
  | VDict d => Ok (d ∪ raw)
  | VNone | VBool _ | VInt _ => Raise TypeError
  | VStr _ | VList _ | VStatus _ => Raise NotModelled
  end.

Section Model.
Context {W : Type}.
Variable deps : Deps W.

Local Open Scope member_scope.

(** One call on the adapter, recorded in [calls]. *)
Definition call (r : request) : M W value :=
  λ s, let (res, w') := adapter deps (remote s) r in
       (res, {| self := self s; remote := w'; calls := calls s ++ [r] |}).

(** The source edits [raw] in place and returns it; here the edited
    mapping is the result. *)
Definition _parse_raw (raw : gmap string value) : result (gmap string value) :=
  (let* raw :=
     if contains raw "status"
     then let* c := getitem raw "status" in
          let* s := Status_factory deps c in
          Ok (<["status" := VStatus s]> raw)
     else Ok raw in
   let raw := if contains raw "member_status_id"
              then delete "member_status_id" raw else raw in
   if contains raw "fields"
   then let* f := getitem raw "fields" in
        let* raw := update raw f in
        Ok (delete "fields" raw)
   else Ok raw)%res.

(** [Member(account, raw)].

    Modelled from the spec: [Collection.__init__] is not in the sources;
    a collection is created unpopulated, so both caches start empty. *)
Definition init (raw : option (gmap string value)) : result t :=
  (let* d := match raw with
             | Some raw => _parse_raw raw
             | None => Ok ∅
             end in
   Ok {| _dict := d; groups := ∅; mailings := ∅ |})%res.

(** Modelled from the spec: [BaseApiModel.__contains__] is not in the
    sources.  An entity is a mapping from field name to value, so
    [k in member] asks the member's [_dict]. *)
Definition Member_contains (m : t) (k : string) : bool := contains (_dict m) k.

(** Modelled from the spec: [BaseApiModel.__getitem__] is not in the
    sources; [member[k]] reads the member's [_dict]. *)
Definition Member_getitem (m : t) (k : string) : result value := getitem (_dict m) k.

(** Modelled from the spec: [BaseApiModel.__setitem__] is not in the
    sources; an entity is mutated in place by field assignment. *)
Definition setitem (k : string) (v : value) : M W unit :=
  let* m := get_self in
  set_self {| _dict := <[k := v]> (_dict m); groups := groups m; mailings := mailings m |}.

(** Modelled from the spec: [Collection.__len__] is not in the sources; a
    collection is a mapping from identifier to entity, and [len] of it is
    the size of its cache. *)
Definition Collection_len (cache : gmap hkey value) : Z := len cache.

Definition opt_out : M W unit :=
  let* m := get_self in
  if negb (contains (_dict m) "email") then raise NoMemberEmailError else
  let* email := lift (getitem (_dict m) "email") in
  let path := "/members/email/optout/" +:+ format_s deps email in
  let* r := call (adapter_put path None) in
  if truthy r then
    let* m := get_self in
    set_self {| _dict := <["status" := VStatus OptOut]> (_dict m);
                groups := groups m; mailings := mailings m |}
  else ret ().

Definition get_opt_out_detail : M W value :=
  let* m := get_self in
  if negb (contains (_dict m) "member_id") then raise NoMemberIdError else
  let* st := lift (getitem (_dict m) "status") in
  if negb (is_status OptOut st) then ret (VList []) else
  let* mid := lift (getitem (_dict m) "member_id") in
  let path := "/members/" +:+ format_s deps mid +:+ "/optout" in
  call (adapter_get path).

(** The [print] of the status is not modelled. *)
Definition has_opted_out : M W bool :=
  let* m := get_self in
  if negb (contains (_dict m) "status") then raise NoMemberStatusError else
  let* st := lift (getitem (_dict m) "status") in
  ret (is_status OptOut st).

(** The inner [squash] of [extract], with the [top_level] it closes
    over. *)
Definition squash (top_level : list string) (d : gmap string value) (t : string * value)
  : result (gmap string value) :=
  if bool_decide (t.1 ∈ top_level) then Ok (<[t.1 := t.2]> d)
  else
    let d := if negb (contains d "fields") then <["fields" := VDict ∅]> d else d in
    match d !! "fields" with
    | Some (VDict f) => Ok (<["fields" := VDict (<[t.1 := t.2]> f)]> d)
    | Some _ => Raise TypeError
    | None => Raise (KeyError "fields")
    end.

(** [extract] reads the member and the account's shortcuts only.  The
    items are visited in the order of [map_to_list] (a Python 2 dict has no
    specified order). *)
Definition extract_of (top_level : option (list string)) (m : t) : result (gmap string value) :=
  if negb (contains (_dict m) "email") then Raise NoMemberEmailError else
  let top_level := default ["member_id"; "email"] top_level in
  let shortcuts := export_shortcuts deps in
  reduce (λ x y, squash top_level x y)
         (filter (λ x, x.1 ∈ shortcuts ++ top_level) (map_to_list (_dict m)))
         ∅.

Definition extract (top_level : option (list string)) : M W (gmap string value) :=
  let* m := get_self in
  lift (extract_of top_level m).

(** [MemberMailingCollection.fetch_all] and
    [MemberGroupCollection.fetch_all], placed before their caller
    [_add].  [self.member] is the member of the state and [self._dict] its
    [mailings], respectively [groups]. *)
Definition MemberMailingCollection_fetch_all : M W (gmap hkey value) :=
  let* m := get_self in
  if negb (Member_contains m "member_id") then raise NoMemberIdError else
  let* mid := lift (Member_getitem m "member_id") in
  let path := "/members/" +:+ format_s deps mid +:+ "/mailings" in
  if negb (dict_bool (mailings m)) then
    let* r := call (adapter_get path) in
    let* d := lift (dict_map "mailing_id" (Mailing deps) r) in
    let* m := get_self in
    let* _ := set_self {| _dict := _dict m; groups := groups m; mailings := d |} in
    ret d
  else ret (mailings m).

Definition MemberGroupCollection_fetch_all : M W (gmap hkey value) :=
  let* m := get_self in
  if negb (Member_contains m "member_id") then raise NoMemberIdError else
  let* mid := lift (Member_getitem m "member_id") in
  let path := "/members/" +:+ format_s deps mid +:+ "/groups" in
  if negb (dict_bool (groups m)) then
    let* r := call (adapter_get path) in
    let* d := lift (dict_map "group_name" (Group deps) r) in
    let* m := get_self in
    let* _ := set_self {| _dict := _dict m; groups := d; mailings := mailings m |} in
    ret d
  else ret (groups m).

Definition _add (signup_form_id : value) : M W unit :=
  let path := "/members/add" in
  let* data := extract None in
  let* m := get_self in
  let* data :=
    if negb (Collection_len (groups m) =? 0)
    then let* g := MemberGroupCollection_fetch_all in
         ret (<["group_ids" := keys g]> data)
    else ret data in
  let data := if truthy signup_form_id
              then <["signup_form_id" := signup_form_id]> data else data in
  let* outcome := call (adapter_post path (VDict data)) in
  let* c := lift (subscript outcome "status") in
  let* s := lift (Status_factory deps c) in
  let* _ := setitem "status" (VStatus s) in
  let* added := lift (subscript outcome "added") in
  if truthy added then
    let* mid := lift (subscript outcome "member_id") in
    setitem "member_id" mid
  else ret ().

(** Lines 166 and 167 of [_update]: the [status_to] entry, for a status
    found in [(Active, Error, OptOut)]. *)
Definition with_status_to (st : value) (data : gmap string value) : gmap string value :=
  if existsb (λ s, is_status s st) [Active; Error; OptOut]
  then match st with
       | VStatus s => <["status_to" := get_code deps s]> data
       | _ => data
       end
  else data.

Definition _update : M W unit :=
  let* m := get_self in
  let* mid := lift (getitem (_dict m) "member_id") in
  let path := "/members/" +:+ format_s deps mid in
  let* data := extract None in
  let* st := lift (getitem (_dict m) "status") in
  let data := with_status_to st data in
  let* r := call (adapter_put path (Some (VDict data))) in
  if negb (truthy r) then raise MemberUpdateError else ret ().

Definition save (signup_form_id : value) : M W unit :=
  let* m := get_self in
  if negb (contains (_dict m) "member_id")
  then _add signup_form_id
  else _update.

(** The operations a caller has on a member and its collections. *)
Inductive operation :=
| do_setitem (k : string) (v : value)
| do_opt_out
| do_get_opt_out_detail
| do_has_opted_out
| do_extract (top_level : option (list string))
| do_save (signup_form_id : value)
| do_mailings_fetch_all
| do_groups_fetch_all.

Definition perform (o : operation) (s : state W) : state W :=
  match o with
  | do_setitem k v => (setitem k v s).2
  | do_opt_out => (opt_out s).2
  | do_get_opt_out_detail => (get_opt_out_detail s).2
  | do_has_opted_out => (has_opted_out s).2
  | do_extract tl => (extract tl s).2
  | do_save sid => (save sid s).2
  | do_mailings_fetch_all => (MemberMailingCollection_fetch_all s).2
  | do_groups_fetch_all => (MemberGroupCollection_fetch_all s).2
  end.

(** Hydrating a member from a raw wire dict and extracting it again with
    the default [top_level]. *)
Definition parse_then_extract (raw : gmap string value) : result (gmap string value) :=
  (let* m := init (Some raw) in extract_of None m)%res.

(** A caller's operations one after the other. *)
Definition perform_all (ops : list operation) (s : state W) : state W :=
  foldl (λ s o, perform o s) s ops.

End Model.

(** The wire body in the words of the specification, to compare [extract]
    with: the fields named in [top_level] stay at the top, the other
    fields that are shortcuts of the account go under ["fields"] (a key
    that is there only when there is such a field), and the rest is left
    out. *)
Definition assemble (top fields : gmap string value) : gmap string value :=
  if dict_bool fields then <["fields" := VDict fields]> top else top.

Definition wire_body (top_level shortcuts : list string) (d : gmap string value)
  : gmap string value :=
  assemble (filter (λ kv, kv.1 ∈ top_level) d)
           (filter (λ kv, (kv.1 ∉ top_level) ∧ (kv.1 ∈ shortcuts)) d).

(** How many create calls, update calls and reads a log holds. *)
Definition is_post (r : request) : bool :=
  match r with adapter_post _ _ => true | _ => false end.

Definition is_put (r : request) : bool :=
  match r with adapter_put _ _ => true | _ => false end.

Definition is_get (r : request) : bool :=
  match r with adapter_get _ => true | _ => false end.

Definition count (p : request → bool) (l : list request) : nat :=
  length (List.filter p l).

End Member.

(** * Fixtures *)

Module Fixture.
Import Member.

(** A scripted adapter in the manner of a test double: it answers the
    calls with the queued results in turn, and with [None] once the queue
    is empty. *)
Definition scripted (w : list (result value)) (r : request) : result value * list (result value) :=
  match w with
  | [] => (Ok VNone, [])
  | x :: w' => (x, w')
  end.

(** Modelled from the spec: [status.py] is not in the sources.  The spec
    gives the wire code ["a"] for Active; the other three codes of this
    table stand in for the real ones, and an unknown code raises. *)
Definition factory (c : value) : result Status :=
  match c with
  | VStr "a" => Ok Active
  | VStr "e" => Ok Error
  | VStr "f" => Ok Forwarded
  | VStr "o" => Ok OptOut
  | VStr s => Raise (KeyError s)
  | _ => Raise TypeError
  end.

Definition code (s : Status) : value :=
  match s with
  | Active => VStr "a"
  | Error => VStr "e"
  | Forwarded => VStr "f"
  | OptOut => VStr "o"
  end.

(** ['%s' % v] on the scalars the paths are built from. *)
Definition format (v : value) : string :=
  match v with
  | VStr s => s
  | VInt z => pretty z
  | VBool true => "True"
  | VBool false => "False"
  | _ => "None"
  end.

Definition deps (shortcuts : list string) : Deps (list (result value)) :=
  {| adapter := scripted;
     export_shortcuts := shortcuts;
     Status_factory := factory;
     get_code := code;
     format_s := format;
     Group := Ok;
     Mailing := Ok |}.

Definition member (d : gmap string value) : Member.t :=
  {| _dict := d; groups := ∅; mailings := ∅ |}.

(** The raw dict and the wire body of the first scenario of the
    specification. *)
Definition scenario_raw : gmap string value :=
  <["member_id" := VInt 123]> (<["email" := VStr "a@b.com"]>
    (<["first_name" := VStr "X"]> ∅)).

Definition scenario_body : gmap string value :=
  <["member_id" := VInt 123]> (<["email" := VStr "a@b.com"]>
    (<["fields" := VDict (<["first_name" := VStr "X"]> ∅)]> ∅)).

Definition start (m : Member.t) (w : list (result value)) : state (list (result value)) :=
  {| self := m; remote := w; calls := [] |}.

End Fixture.

(** * The cache a collection builds *)

(** The element [x] of an answer yields the cache entry [k ↦ e]: its [key]
    field hashes to [k] and its entity is [e]. *)
Definition keyed (key : string) (entity : value → result value)
    (x : value) (k : hkey) (e : value) : Prop :=
  ∃ kv, subscript x key = Ok kv ∧ hash_key kv = Ok k ∧ entity x = Ok e.

(** [d] is the cache of the answer [xs]: every entry comes from an element,
    every element has an entry under its key, and among elements with the
    same key the last one is the one cached. *)
Definition cache_of (key : string) (entity : value → result value)
    (xs : list value) (d : gmap hkey value) : Prop :=
  (∀ k e, d !! k = Some e → ∃ x, x ∈ xs ∧ keyed key entity x k e) ∧
  (∀ x, x ∈ xs → ∃ k e, keyed key entity x k e ∧ is_Some (d !! k)) ∧
  (∀ xs1 x xs2 k e,
     xs = xs1 ++ x :: xs2 → keyed key entity x k e →
     (∀ y e', y ∈ xs2 → ¬ keyed key entity y k e') →
     d !! k = Some e).

(** * The member model over the Requests adapter *)

Module Wired.
Import Member.

Section Wired.
Context {W : Type}.
Variable requests : W → RequestsAdapter.http_call → response * W.
Variable json_dumps : value → string.
Variable self : RequestsAdapter.t.

(** The calls of [member.py] as [RequestsAdapter] serves them: [get(path)]
    and [put(path)] run with the default [params={}], [put(path, data)]
    hands the body over as [params], and [post(path, data)] as serialised
    [data]. *)
Definition requests_adapter (w : W) (r : request) : result value * W :=
  match r with
  | adapter_get path => RequestsAdapter.get requests self w path (VDict ∅)
  | adapter_post path data => RequestsAdapter.post requests json_dumps self w path data
  | adapter_put path params =>
      RequestsAdapter.put requests self w path (default (VDict ∅) params)
  end.

(** Dependencies of the member model whose adapter is the Requests
    adapter. *)
Definition wired (deps : Deps W) : Prop :=
  ∀ w r, adapter deps w r = requests_adapter w r.

End Wired.

End Wired.

(** * emma_import.py *)

Module EmmaImport.

Section Model.
(** [V] stands for the Python objects an import holds.  The two factories
    and the date helper of [ModelWithDateFields] are not defined in
    [emma_import.py]; the helper is given the dict and answers with the
    dict as it has left it, or raises. *)
Context {V : Type}.
Variable ImportStatus_factory : V → result V.
Variable ImportStyle_factory : V → result V.
Variable _str_fields_to_datetime : list string → gmap string V → result (gmap string V).

Definition _parse_raw (raw : gmap string V) : result (gmap string V) :=
  (let* raw :=
     match raw !! "status" with
     | Some c => let* s := ImportStatus_factory c in Ok (<["status" := s]> raw)
     | None => Ok raw
     end in
   let* raw :=
     match raw !! "style" with
     | Some c => let* s := ImportStyle_factory c in Ok (<["style" := s]> raw)
     | None => Ok raw
     end in
   _str_fields_to_datetime ["import_started"; "import_finished"] raw)%res.

(** [EmmaImport(account, raw)]: the [_dict] of the new import. *)
Definition init (raw : option (gmap string V)) : result (gmap string V) :=
  match raw with
  | Some raw => _parse_raw raw
  | None => Ok ∅
  end.

End Model.

End EmmaImport.

(** * More fixtures *)

Module HttpFixture.
Import Member.

(** A scripted [requests]: the queued responses in turn, then 404. *)
Definition scripted_http (w : list response) (c : RequestsAdapter.http_call)
  : response * list response :=
  match w with
  | [] => (Response 404 VNone, [])
  | r :: w' => (r, w')
  end.

Definition account : RequestsAdapter.t :=
  RequestsAdapter.init "1234" "08192a3b4c5d6e7f" "f7e6d5c4b3a29180".

Definition deps (shortcuts : list string) : Deps (list response) :=
  {| adapter := Wired.requests_adapter scripted_http (λ _, "{}") account;
     export_shortcuts := shortcuts;
     Status_factory := Fixture.factory;
     get_code := Fixture.code;
     format_s := Fixture.format;
     Group := Ok;
     Mailing := Ok |}.

Definition start (m : Member.t) (w : list response) : state (list response) :=
  {| self := m; remote := w; calls := [] |}.

(** A date helper for the import fixtures: it tags the value of each
    listed field that is present. *)
Definition tag_dates (fields : list string) (d : gmap string string)
  : result (gmap string string) :=
  Ok (foldr (λ k acc, match acc !! k with
                      | Some v => <[k := "date:" +:+ v]> acc
                      | None => acc
                      end) d fields).

Definition import_factory (kind : string) (c : string) : result string :=
  if String.eqb c "" then Raise (KeyError c) else Ok (kind +:+ c).

End HttpFixture.

(** * Properties of the transport adapter *)

Section AdapterFacts.
Import RequestsAdapter.

Lemma process_response_by_status (r : response) :
  by_status (_process_response r) r.
Proof.
  unfold by_status, _process_response.
  destruct (Z.eqb_spec (status_code r) 404) as [E|E].
  - split_and!; intros; try done; lia.
  - destruct (Z.gtb_spec (status_code r) 200) as [G|G];
      split_and!; intros; try done; lia.
Qed.

(** C2, as the code has it: each of [post], [get], [put] and [delete]
    returns [None] when the response status is 404, raises
    [ApiRequestFailed] carrying the raw response for any other status above
    200, and returns the decoded body of a response whose status is 200 or
    lower. *)
Theorem adapter_result_by_status {W} (requests : W → http_call → response * W)
    (json_dumps : value → string) (self : RequestsAdapter.t) (w : W)
    (path : string) (arg : value) :
  by_status (post requests json_dumps self w path arg).1
            (requests w (requests_post (url self +:+ path) (json_dumps arg) (auth self))).1 ∧
  by_status (get requests self w path arg).1
            (requests w (requests_get (url self +:+ path) arg (auth self))).1 ∧
  by_status (put requests self w path arg).1
            (requests w (requests_put (url self +:+ path) arg (auth self))).1 ∧
  by_status (delete requests self w path arg).1
            (requests w (requests_delete (url self +:+ path) arg (auth self))).1.
Proof.
  unfold post, get, put, delete.
  split_and!; match goal with |- context [requests w ?c] => destruct (requests w c) end;
    apply process_response_by_status.
Qed.

(** C2 as stated fails twice: a response with status 200 whose decoded
    body is [None] gives a null result without being a 404, and a response
    with the success status 201 raises [ApiRequestFailed]. *)
Lemma adapter_null_without_404_and_201_raises :
  _process_response (Response 200 VNone) = Ok VNone ∧
  status_code (Response 200 VNone) ≠ 404 ∧
  _process_response (Response 201 (VBool true))
    = Raise (ApiRequestFailed (Response 201 (VBool true))).
Proof. split; [reflexivity | split; [simpl; lia | reflexivity]]. Qed.

End AdapterFacts.

(** * Properties of the member model *)

Section DictFacts.
Context {K A : Type} `{Countable K}.

Lemma contains_Some (d : gmap K A) k v : d !! k = Some v → contains d k = true.
Proof. intros E. unfold contains. rewrite E. by apply bool_decide_eq_true. Qed.

Lemma contains_None (d : gmap K A) k : d !! k = None → contains d k = false.
Proof.
  intros E. unfold contains. rewrite E.
  apply bool_decide_eq_false. by intros [? ?].
Qed.

Lemma dict_bool_false (d : gmap K A) : dict_bool d = false ↔ d = ∅.
Proof.
  unfold dict_bool, len. rewrite negb_false_iff, Z.eqb_eq.
  rewrite <- map_size_empty_iff. lia.
Qed.

Lemma dict_bool_true (d : gmap K A) : dict_bool d = true ↔ d ≠ ∅.
Proof.
  rewrite <- dict_bool_false. destruct (dict_bool d); naive_solver.
Qed.

Lemma len_nonzero (d : gmap K A) : negb (len d =? 0) = dict_bool d.
Proof. done. Qed.

End DictFacts.

Lemma getitem_Some (d : gmap string value) k v : d !! k = Some v → getitem d k = Ok v.
Proof. intros E. unfold getitem. by rewrite E. Qed.

Lemma getitem_None (d : gmap string value) k : d !! k = None → getitem d k = Raise (KeyError k).
Proof. intros E. unfold getitem. by rewrite E. Qed.

(** Case analysis along the answer of the adapter and what the model
    reads from it: every branch of the goal is closed by [done]. *)
Ltac walk_response :=
  repeat match goal with
         | |- context [match ?r with Ok _ => _ | Raise _ => _ end] =>
             destruct r; try done
         | |- context [if truthy ?v then _ else _] =>
             destruct (truthy v); try done
         end.

Section MemberFacts.
Import Member.
Context {W : Type}.
Variable deps : Deps W.

(** ** [extract] against the wire body of the specification *)

Lemma squash_assemble (top_level : list string) (T F : gmap string value) k v :
  "fields" ∉ top_level →
  T !! "fields" = None →
  squash top_level (assemble T F) (k, v)
  = Ok (if bool_decide (k ∈ top_level)
        then assemble (<[k := v]> T) F
        else assemble T (<[k := v]> F)).
Proof.
  intros Hf HT. unfold squash. simpl. case_bool_decide as Hk.
  - f_equal. unfold assemble. destruct (dict_bool F); [|done].
    apply insert_insert_ne. intros ->. done.
  - assert (dict_bool (<[k := v]> F) = true) as HF.
    { apply dict_bool_true. apply insert_non_empty. }
    unfold assemble. rewrite HF.
    destruct (dict_bool F) eqn:E.
    + rewrite (contains_Some _ _ (VDict F)) by apply lookup_insert_eq. simpl.
      rewrite lookup_insert_eq. by rewrite insert_insert_eq.
    + apply dict_bool_false in E as ->.
      rewrite (contains_None _ _ HT). simpl.
      rewrite lookup_insert_eq. by rewrite insert_insert_eq.
Qed.

Lemma reduce_squash (top_level : list string) (l : list (string * value)) :
  "fields" ∉ top_level →
  ∀ T F, T !! "fields" = None →
  reduce (λ x y, squash top_level x y) l (assemble T F)
  = Ok (assemble
          (foldl (λ m kv, <[kv.1 := kv.2]> m) T (filter (λ kv, kv.1 ∈ top_level) l))
          (foldl (λ m kv, <[kv.1 := kv.2]> m) F (filter (λ kv, kv.1 ∉ top_level) l))).
Proof.
  intros Hf. induction l as [|[k v] l IH]; intros T F HT; [done|].
  simpl. rewrite squash_assemble by done. simpl.
  case_bool_decide as Hk.
  - rewrite IH.
    + rewrite (filter_cons_True _ (k, v)) by done.
      rewrite (filter_cons_False _ (k, v)) by (simpl; tauto). done.
    + rewrite lookup_insert_ne; [done|]. intros ->. done.
  - rewrite IH by done.
    rewrite (filter_cons_False _ (k, v)) by done.
    rewrite (filter_cons_True (λ kv, kv.1 ∉ top_level) (k, v)) by done. done.
Qed.

Lemma foldl_insert_list_to_map (l : list (string * value)) :
  NoDup l.*1 →
  ∀ acc : gmap string value,
    foldl (λ m kv, <[kv.1 := kv.2]> m) acc l = list_to_map l ∪ acc.
Proof.
  induction l as [|[k v] l IH]; intros ND acc; simpl.
  - by rewrite (left_id_L ∅ (∪)).
  - apply NoDup_cons in ND as [Hk ND]. rewrite IH by done.
    rewrite <- insert_union_l. symmetry. apply insert_union_r.
    by apply not_elem_of_list_to_map_1.
Qed.

Lemma NoDup_fst_filter (P : string * value → Prop) `{∀ x, Decision (P x)}
    (l : list (string * value)) :
  NoDup l.*1 → NoDup (filter P l).*1.
Proof.
  intros ND. eapply sublist_NoDup; [exact ND|].
  apply fmap_sublist, sublist_filter.
Qed.

(** With a [top_level] that does not name ["fields"], [extract] builds the
    wire body of the specification whenever the member has an email. *)
Lemma extract_of_wire_body (top_level : list string) (m : Member.t) :
  "fields" ∉ top_level →
  is_Some (_dict m !! "email") →
  extract_of deps (Some top_level) m
  = Ok (wire_body top_level (export_shortcuts deps) (_dict m)).
Proof.
  intros Hf [e He]. unfold extract_of. rewrite (contains_Some _ _ _ He). simpl.
  replace (∅ : gmap string value) with (assemble ∅ ∅) at 1 by done.
  rewrite reduce_squash by done.
  rewrite !list_filter_filter.
  rewrite !foldl_insert_list_to_map
    by (apply NoDup_fst_filter, NoDup_fst_map_to_list).
  rewrite !(right_id_L ∅ (∪)). rewrite <- !map_filter_alt.
  unfold wire_body. f_equal; f_equal.
  - apply map_filter_ext. intros k v _. simpl. rewrite elem_of_app. tauto.
  - apply map_filter_ext. intros k v _. simpl. rewrite elem_of_app. tauto.
Qed.

Lemma extract_of_default (m : Member.t) :
  extract_of deps None m = extract_of deps (Some ["member_id"; "email"]) m.
Proof. done. Qed.

Lemma extract_of_no_email (tl : option (list string)) (m : Member.t) :
  _dict m !! "email" = None → extract_of deps tl m = Raise NoMemberEmailError.
Proof. intros E. unfold extract_of. by rewrite (contains_None _ _ E). Qed.

Lemma wire_body_lookup_top (top_level shortcuts : list string) (d : gmap string value) k :
  k ∈ top_level → k ≠ "fields" →
  wire_body top_level shortcuts d !! k = d !! k.
Proof.
  intros Hk Hf. unfold wire_body, assemble.
  destruct (dict_bool _); [rewrite lookup_insert_ne by done|];
    rewrite map_lookup_filter; destruct (d !! k) as [v|]; simpl; try done;
    by rewrite option_guard_True.
Qed.

Lemma wire_body_lookup_other (top_level shortcuts : list string) (d : gmap string value) k :
  k ∉ top_level → k ≠ "fields" →
  wire_body top_level shortcuts d !! k = None.
Proof.
  intros Hk Hf. unfold wire_body, assemble.
  destruct (dict_bool _); [rewrite lookup_insert_ne by done|];
    rewrite map_lookup_filter; destruct (d !! k) as [v|]; simpl; try done;
    by rewrite option_guard_False.
Qed.

Lemma extract_of_email (m : Member.t) :
  is_Some (_dict m !! "email") →
  extract_of deps None m
  = Ok (wire_body ["member_id"; "email"] (export_shortcuts deps) (_dict m)).
Proof.
  intros E. rewrite extract_of_default. apply extract_of_wire_body; [|done].
  rewrite !not_elem_of_cons. split_and!; [done|done|apply not_elem_of_nil].
Qed.

(** ** [_parse_raw] and the round trip *)

Lemma _parse_raw_keeps (raw : gmap string value) (k : string) :
  k ≠ "status" → k ≠ "member_status_id" → k ≠ "fields" →
  (∀ c, raw !! "status" = Some c → ∃ st, Status_factory deps c = Ok st) →
  (raw !! "fields" = None ∨
   ∃ f, raw !! "fields" = Some (VDict f) ∧ f !! k = None) →
  ∃ d, _parse_raw deps raw = Ok d ∧ d !! k = raw !! k.
Proof.
  intros Hk1 Hk2 Hk3 Hst Hf. unfold _parse_raw.
  set (raw1 := (if contains raw "status" then _ else _)%res).
  assert (∃ d1, raw1 = Ok d1 ∧ d1 !! k = raw !! k ∧ d1 !! "fields" = raw !! "fields")
    as (d1 & -> & Hd1 & Hf1).
  { subst raw1. destruct (raw !! "status") as [c|] eqn:Hc.
    - rewrite (contains_Some _ _ _ Hc), (getitem_Some _ _ _ Hc). simpl.
      destruct (Hst c eq_refl) as [st ->]. simpl. eexists. split; [done|].
      by rewrite !lookup_insert_ne.
    - rewrite (contains_None _ _ Hc). by eexists. }
  simpl. set (d2 := if contains d1 "member_status_id" then _ else _).
  assert (d2 !! k = raw !! k ∧ d2 !! "fields" = raw !! "fields") as [Hd2 Hf2].
  { subst d2. destruct (contains d1 "member_status_id"); [|done].
    by rewrite !lookup_delete_ne. }
  destruct Hf as [Hf|(f & Hf & Hfk)].
  - rewrite (contains_None d2 "fields") by congruence. by eexists.
  - rewrite (contains_Some d2 "fields" (VDict f)) by congruence.
    rewrite (getitem_Some d2 "fields" (VDict f)) by congruence. simpl.
    eexists. split; [done|].
    rewrite lookup_delete_ne by done.
    rewrite lookup_union_r by done. done.
Qed.

Lemma _parse_raw_plain (raw : gmap string value) :
  raw !! "status" = None → raw !! "member_status_id" = None →
  raw !! "fields" = None →
  _parse_raw deps raw = Ok raw.
Proof.
  intros H1 H2 H3. unfold _parse_raw.
  rewrite (contains_None _ _ H1). simpl.
  rewrite (contains_None _ _ H2). by rewrite (contains_None _ _ H3).
Qed.

Lemma scenario_wire_body :
  "first_name" ∈ export_shortcuts deps →
  wire_body ["member_id"; "email"] (export_shortcuts deps) Fixture.scenario_raw
  = Fixture.scenario_body.
Proof.
  intros Hsc. unfold wire_body, Fixture.scenario_raw.
  set (top := filter _ _). set (fields := filter _ _).
  assert ("first_name" ∉ ["member_id"; "email"]) as Hfn.
  { rewrite !not_elem_of_cons. split_and!; [done|done|apply not_elem_of_nil]. }
  assert (top = <["member_id" := VInt 123]> (<["email" := VStr "a@b.com"]> ∅)) as ->.
  { subst top. rewrite map_filter_insert_True by apply list_elem_of_here.
    rewrite map_filter_insert_True
      by apply list_elem_of_further, list_elem_of_here.
    rewrite map_filter_insert_False by exact Hfn.
    by rewrite delete_empty, map_filter_empty. }
  assert (fields = <["first_name" := VStr "X"]> ∅) as ->.
  { subst fields.
    rewrite map_filter_insert_False
      by (intros [Hn _]; apply Hn, list_elem_of_here).
    rewrite !delete_insert_ne, delete_empty by done.
    rewrite map_filter_insert_False
      by (intros [Hn _]; apply Hn, list_elem_of_further, list_elem_of_here).
    rewrite !delete_insert_ne, delete_empty by done.
    rewrite map_filter_insert_True by (split; [exact Hfn|exact Hsc]).
    by rewrite map_filter_empty. }
  done.
Qed.

(** C8, as the code has it: for a raw wire dict that carries an email, a
    status code (if any) the factory resolves, and a nested ["fields"] (if
    any) that is a dict naming neither [member_id] nor [email], hydrating a
    member from it and extracting with the default top level gives a wire
    body whose [member_id] and [email] entries are those of the raw dict;
    and when ["first_name"] is a shortcut of the account, the raw dict of
    the first scenario yields the wire body of that scenario. *)
Theorem parse_then_extract_keeps_identity_and_email (raw : gmap string value) :
  (is_Some (raw !! "email") →
   (∀ c, raw !! "status" = Some c → ∃ st, Status_factory deps c = Ok st) →
   (raw !! "fields" = None ∨
    ∃ f, raw !! "fields" = Some (VDict f) ∧
         f !! "member_id" = None ∧ f !! "email" = None) →
   ∃ body, parse_then_extract deps raw = Ok body ∧
           body !! "member_id" = raw !! "member_id" ∧
           body !! "email" = raw !! "email") ∧
  ("first_name" ∈ export_shortcuts deps →
   parse_then_extract deps Fixture.scenario_raw = Ok Fixture.scenario_body).
Proof.
  split.
  - intros He Hst Hf. unfold parse_then_extract, init.
    destruct (_parse_raw_keeps raw "member_id") as (d & Hd & Hid); try done.
    { destruct Hf as [?|(f & ? & ? & ?)]; eauto. }
    destruct (_parse_raw_keeps raw "email") as (d' & Hd' & Hem); try done.
    { destruct Hf as [?|(f & ? & ? & ?)]; eauto. }
    rewrite Hd in Hd'. injection Hd' as <-. rewrite Hd. simpl.
    rewrite extract_of_email by (simpl; by rewrite Hem).
    eexists. split; [done|]. simpl.
    rewrite (wire_body_lookup_top _ _ _ "member_id")
      by (done || apply list_elem_of_here).
    rewrite (wire_body_lookup_top _ _ _ "email")
      by (done || apply list_elem_of_further, list_elem_of_here).
    done.
  - intros Hsc. unfold parse_then_extract, init.
    rewrite _parse_raw_plain by done. simpl.
    rewrite extract_of_email by (simpl; eauto).
    simpl. by rewrite scenario_wire_body.
Qed.

(** ** [_update] *)

Lemma calls_not_extended (l : list request) (x : request) : l ≠ l ++ [x].
Proof.
  intros Hx. apply (f_equal length) in Hx. rewrite length_app in Hx.
  simpl in Hx. lia.
Qed.

Lemma _update_run (s : state W) (mid : value) :
  _dict (self s) !! "member_id" = Some mid →
  _update deps s =
    match extract_of deps None (self s) with
    | Raise e => (Raise e, s)
    | Ok data =>
        match _dict (self s) !! "status" with
        | None => (Raise (KeyError "status"), s)
        | Some st =>
            let put := adapter_put ("/members/" +:+ format_s deps mid)
                                   (Some (VDict (with_status_to deps st data))) in
            let s1 := {| self := self s; remote := (adapter deps (remote s) put).2;
                         calls := calls s ++ [put] |} in
            match (adapter deps (remote s) put).1 with
            | Ok r => if truthy r then (Ok (), s1) else (Raise MemberUpdateError, s1)
            | Raise e => (Raise e, s1)
            end
        end
    end.
Proof.
  intros E. unfold _update, extract, bind, get_self, lift, call, raise, ret.
  rewrite (getitem_Some _ _ _ E).
  destruct (extract_of deps None (self s)) as [data|e]; [|done].
  unfold getitem. destruct (_dict (self s) !! "status") as [st|]; [|done].
  simpl. destruct (adapter deps (remote s) _) as [[r|e] w']; simpl; [|done].
  by destruct (truthy r).
Qed.

Lemma save_with_id (s : state W) sid mid :
  _dict (self s) !! "member_id" = Some mid → save deps sid s = _update deps s.
Proof.
  intros E. unfold save, bind, get_self. by rewrite (contains_Some _ _ _ E).
Qed.

Lemma save_without_id (s : state W) sid :
  _dict (self s) !! "member_id" = None → save deps sid s = _add deps sid s.
Proof.
  intros E. unfold save, bind, get_self. by rewrite (contains_None _ _ E).
Qed.

Lemma _update_keeps_self (s : state W) mid :
  _dict (self s) !! "member_id" = Some mid → self (_update deps s).2 = self s.
Proof.
  intros E. rewrite (_update_run s mid E).
  destruct (extract_of deps None (self s)) as [data|e]; [|done].
  destruct (_dict (self s) !! "status") as [st|]; [|done]. simpl.
  destruct (adapter deps (remote s) _).1 as [r|e]; [|done].
  by destruct (truthy r).
Qed.

Lemma with_status_to_lookup (st : value) (data : gmap string value) :
  data !! "status_to" = None →
  (∃ x, st = VStatus x ∧ x ∈ [Active; Error; OptOut] ∧
        with_status_to deps st data !! "status_to" = Some (get_code deps x)) ∨
  ((∀ x, x ∈ [Active; Error; OptOut] → st ≠ VStatus x) ∧
   with_status_to deps st data !! "status_to" = None).
Proof.
  intros D. unfold with_status_to.
  destruct st as [| | | |x| |]; simpl;
    try (right; split; [by intros ? _|done]).
  destruct x; simpl.
  - left. exists Active. rewrite lookup_insert_eq.
    split_and!; [done|apply list_elem_of_here|done].
  - left. exists Error. rewrite lookup_insert_eq.
    split_and!; [done|apply list_elem_of_further, list_elem_of_here|done].
  - right. split; [|done]. intros x Hx [= <-]. revert Hx.
    rewrite !elem_of_cons, elem_of_nil. intros [?|[?|[?|[]]]]; discriminate.
  - left. exists OptOut. rewrite lookup_insert_eq.
    split_and!; [done| |done].
    apply list_elem_of_further, list_elem_of_further, list_elem_of_here.
Qed.

(** C3: for a member with a [member_id] (and the email and status that
    the update path reads), the body that [save] puts to the member's path
    holds [status_to], with the wire code of the status, exactly when the
    status is one of [Active], [Error] and [OptOut]; for any other status
    the key is left out. *)
Theorem update_body_status_to (s : state W) (sid mid e st : value) :
  _dict (self s) !! "member_id" = Some mid →
  _dict (self s) !! "email" = Some e →
  _dict (self s) !! "status" = Some st →
  ∃ body,
    calls (save deps sid s).2
      = calls s ++ [adapter_put ("/members/" +:+ format_s deps mid) (Some (VDict body))] ∧
    ((∃ x, st = VStatus x ∧ x ∈ [Active; Error; OptOut] ∧
           body !! "status_to" = Some (get_code deps x)) ∨
     ((∀ x, x ∈ [Active; Error; OptOut] → st ≠ VStatus x) ∧
      body !! "status_to" = None)).
Proof.
  intros Hid He Hst. rewrite (save_with_id s sid mid Hid), (_update_run s mid Hid).
  rewrite extract_of_email by eauto. rewrite Hst. simpl.
  eexists. split.
  - walk_response.
  - apply with_status_to_lookup. apply wire_body_lookup_other; [|done].
    rewrite !not_elem_of_cons. split_and!; [done|done|apply not_elem_of_nil].
Qed.

(** C4: on the update path, when the [put] that [save] issued is answered
    with a falsy value, [save] raises [MemberUpdateError] and the member,
    its field mapping included, is what it was before the call. *)
Theorem update_falsy_raises_and_keeps_fields (s : state W) (sid mid : value)
    (path : string) (body : option value) (r : value) (w' : W) :
  _dict (self s) !! "member_id" = Some mid →
  calls (save deps sid s).2 = calls s ++ [adapter_put path body] →
  adapter deps (remote s) (adapter_put path body) = (Ok r, w') →
  truthy r = false →
  (save deps sid s).1 = Raise MemberUpdateError ∧
  self (save deps sid s).2 = self s.
Proof.
  intros Hid. rewrite (save_with_id s sid mid Hid). intros Hc Ha Hr.
  split; [|by apply (_update_keeps_self s mid)].
  revert Hc. rewrite (_update_run s mid Hid).
  destruct (extract_of deps None (self s)) as [data|?];
    [|simpl; intros Hx; by destruct (calls_not_extended _ _ Hx)].
  destruct (_dict (self s) !! "status") as [st|];
    [|simpl; intros Hx; by destruct (calls_not_extended _ _ Hx)].
  simpl. set (put := adapter_put _ _).
  assert (calls s ++ [put] = calls s ++ [adapter_put path body] →
          put = adapter_put path body) as Hput.
  { intros Hx. apply app_inv_head in Hx. congruence. }
  destruct (adapter deps (remote s) put) as [res w1] eqn:Hres. simpl.
  destruct res as [r1|?]; [destruct (truthy r1) eqn:Hr1|]; simpl;
    intros Hc%Hput; rewrite Hc, Ha in Hres; injection Hres as ??; subst;
    congruence.
Qed.

(** ** The collections *)

Lemma mailings_fetch_all_without_id (s : state W) :
  _dict (self s) !! "member_id" = None →
  MemberMailingCollection_fetch_all deps s = (Raise NoMemberIdError, s).
Proof.
  intros E.
  unfold MemberMailingCollection_fetch_all, Member_contains, bind, get_self, raise.
  by rewrite (contains_None _ _ E).
Qed.

Lemma groups_fetch_all_without_id (s : state W) :
  _dict (self s) !! "member_id" = None →
  MemberGroupCollection_fetch_all deps s = (Raise NoMemberIdError, s).
Proof.
  intros E.
  unfold MemberGroupCollection_fetch_all, Member_contains, bind, get_self, raise.
  by rewrite (contains_None _ _ E).
Qed.

Lemma mailings_fetch_all_run (s : state W) (mid : value) :
  _dict (self s) !! "member_id" = Some mid →
  MemberMailingCollection_fetch_all deps s =
    if dict_bool (mailings (self s)) then (Ok (mailings (self s)), s)
    else
      let get := adapter_get ("/members/" +:+ format_s deps mid +:+ "/mailings") in
      let w' := (adapter deps (remote s) get).2 in
      match (let* r := (adapter deps (remote s) get).1 in
             dict_map "mailing_id" (Mailing deps) r)%res with
      | Ok d => (Ok d, {| self := {| _dict := _dict (self s); groups := groups (self s);
                                     mailings := d |};
                          remote := w'; calls := calls s ++ [get] |})
      | Raise e => (Raise e, {| self := self s; remote := w'; calls := calls s ++ [get] |})
      end.
Proof.
  intros E. unfold MemberMailingCollection_fetch_all, Member_contains,
    Member_getitem, bind, get_self, lift, call, set_self, ret.
  rewrite (contains_Some _ _ _ E), (getitem_Some _ _ _ E). simpl.
  destruct (dict_bool (mailings (self s))); simpl; [done|].
  destruct (adapter deps (remote s) _) as [[r|e] w']; simpl; [|done].
  by destruct (dict_map "mailing_id" (Mailing deps) r).
Qed.

Lemma groups_fetch_all_run (s : state W) (mid : value) :
  _dict (self s) !! "member_id" = Some mid →
  MemberGroupCollection_fetch_all deps s =
    if dict_bool (groups (self s)) then (Ok (groups (self s)), s)
    else
      let get := adapter_get ("/members/" +:+ format_s deps mid +:+ "/groups") in
      let w' := (adapter deps (remote s) get).2 in
      match (let* r := (adapter deps (remote s) get).1 in
             dict_map "group_name" (Group deps) r)%res with
      | Ok d => (Ok d, {| self := {| _dict := _dict (self s); groups := d;
                                     mailings := mailings (self s) |};
                          remote := w'; calls := calls s ++ [get] |})
      | Raise e => (Raise e, {| self := self s; remote := w'; calls := calls s ++ [get] |})
      end.
Proof.
  intros E. unfold MemberGroupCollection_fetch_all, Member_contains,
    Member_getitem, bind, get_self, lift, call, set_self, ret.
  rewrite (contains_Some _ _ _ E), (getitem_Some _ _ _ E). simpl.
  destruct (dict_bool (groups (self s))); simpl; [done|].
  destruct (adapter deps (remote s) _) as [[r|e] w']; simpl; [|done].
  by destruct (dict_map "group_name" (Group deps) r).
Qed.

Lemma dict_map_empty (key : string) (entity : value → result value) (r : value) :
  py_iter r = Ok [] → dict_map key entity r = Ok ∅.
Proof. intros E. unfold dict_map. by rewrite E. Qed.

(** C10: when the [get] of a collection is answered with an empty
    sequence, [fetch_all] returns an empty mapping and leaves the cache
    empty, and the next [fetch_all] issues the request again; so for the
    mailings as for the groups. *)
Theorem empty_fetch_is_refetched (s : state W) (mid : value) :
  _dict (self s) !! "member_id" = Some mid →
  (∀ r w',
     mailings (self s) = ∅ →
     adapter deps (remote s)
       (adapter_get ("/members/" +:+ format_s deps mid +:+ "/mailings")) = (Ok r, w') →
     py_iter r = Ok [] →
     let s1 := (MemberMailingCollection_fetch_all deps s).2 in
     (MemberMailingCollection_fetch_all deps s).1 = Ok ∅ ∧
     mailings (self s1) = ∅ ∧
     calls s1 = calls s ++ [adapter_get ("/members/" +:+ format_s deps mid +:+ "/mailings")] ∧
     calls (MemberMailingCollection_fetch_all deps s1).2
       = calls s ++ [adapter_get ("/members/" +:+ format_s deps mid +:+ "/mailings");
                     adapter_get ("/members/" +:+ format_s deps mid +:+ "/mailings")]) ∧
  (∀ r w',
     groups (self s) = ∅ →
     adapter deps (remote s)
       (adapter_get ("/members/" +:+ format_s deps mid +:+ "/groups")) = (Ok r, w') →
     py_iter r = Ok [] →
     let s1 := (MemberGroupCollection_fetch_all deps s).2 in
     (MemberGroupCollection_fetch_all deps s).1 = Ok ∅ ∧
     groups (self s1) = ∅ ∧
     calls s1 = calls s ++ [adapter_get ("/members/" +:+ format_s deps mid +:+ "/groups")] ∧
     calls (MemberGroupCollection_fetch_all deps s1).2
       = calls s ++ [adapter_get ("/members/" +:+ format_s deps mid +:+ "/groups");
                     adapter_get ("/members/" +:+ format_s deps mid +:+ "/groups")]).
Proof.
  intros Hid. split.
  - intros r w' Hm Ha Hr s1. subst s1.
    assert (MemberMailingCollection_fetch_all deps s
            = (Ok ∅, {| self := {| _dict := _dict (self s); groups := groups (self s); mailings := ∅ |};
                        remote := w';
                        calls := calls s ++ [adapter_get ("/members/" +:+ format_s deps mid
                                                          +:+ "/mailings")] |})) as Hrun.
    { rewrite (mailings_fetch_all_run s mid Hid).
      rewrite (proj2 (dict_bool_false _) Hm). simpl. rewrite Ha. simpl.
      by rewrite (dict_map_empty _ _ _ Hr). }
    rewrite Hrun. simpl. split_and!; try done.
    rewrite (mailings_fetch_all_run _ mid) by done. simpl.
    rewrite <- (assoc_L (++)). simpl.
    by destruct (let* r0 := _ in _)%res.
  - intros r w' Hm Ha Hr s1. subst s1.
    assert (MemberGroupCollection_fetch_all deps s
            = (Ok ∅, {| self := {| _dict := _dict (self s); groups := ∅; mailings := mailings (self s) |};
                        remote := w';
                        calls := calls s ++ [adapter_get ("/members/" +:+ format_s deps mid
                                                          +:+ "/groups")] |})) as Hrun.
    { rewrite (groups_fetch_all_run s mid Hid).
      rewrite (proj2 (dict_bool_false _) Hm). simpl. rewrite Ha. simpl.
      by rewrite (dict_map_empty _ _ _ Hr). }
    rewrite Hrun. simpl. split_and!; try done.
    rewrite (groups_fetch_all_run _ mid) by done. simpl.
    rewrite <- (assoc_L (++)). simpl.
    by destruct (let* r0 := _ in _)%res.
Qed.

(** ** [_add] *)

Lemma _add_run (s : state W) (sid : value) :
  _dict (self s) !! "member_id" = None →
  _add deps sid s =
    match extract_of deps None (self s) with
    | Raise e => (Raise e, s)
    | Ok data =>
        if dict_bool (groups (self s)) then (Raise NoMemberIdError, s)
        else
          let post := adapter_post "/members/add"
                        (VDict (if truthy sid
                                then <["signup_form_id" := sid]> data else data)) in
          let s1 := {| self := self s; remote := (adapter deps (remote s) post).2;
                       calls := calls s ++ [post] |} in
          match (adapter deps (remote s) post).1 with
          | Raise e => (Raise e, s1)
          | Ok outcome =>
              match subscript outcome "status" with
              | Raise e => (Raise e, s1)
              | Ok c =>
                  match Status_factory deps c with
                  | Raise e => (Raise e, s1)
                  | Ok st =>
                      let s2 := (setitem "status" (VStatus st) s1).2 in
                      match subscript outcome "added" with
                      | Raise e => (Raise e, s2)
                      | Ok added =>
                          if truthy added
                          then match subscript outcome "member_id" with
                               | Raise e => (Raise e, s2)
                               | Ok mid => (Ok (), (setitem "member_id" mid s2).2)
                               end
                          else (Ok (), s2)
                      end
                  end
              end
          end
    end.
Proof.
  intros E. unfold _add, extract. unfold bind at 1 2. unfold get_self at 1, lift at 1.
  destruct (extract_of deps None (self s)) as [data|e]; [|done].
  unfold bind at 1. unfold get_self at 1. unfold Collection_len. rewrite len_nonzero.
  destruct (dict_bool (groups (self s))).
  { unfold bind at 1 2. by rewrite (groups_fetch_all_without_id s E). }
  unfold bind at 1. unfold ret at 1. unfold bind at 1. unfold call.
  destruct (adapter deps (remote s) _) as [[outcome|e] w']; simpl; [|done].
  unfold bind at 1. unfold lift at 1.
  destruct (subscript outcome "status") as [c|e]; simpl; [|done].
  unfold bind at 1. unfold lift at 1.
  destruct (Status_factory deps c) as [st|e]; simpl; [|done].
  unfold bind at 1. unfold setitem at 1. unfold bind at 1, get_self at 1, set_self at 1.
  simpl. unfold bind at 1, lift at 1.
  destruct (subscript outcome "added") as [added|e]; simpl; [|done].
  destruct (truthy added); [|done].
  unfold bind at 1, lift at 1.
  by destruct (subscript outcome "member_id") as [mid|e].
Qed.

(** ** [save] *)

(** C1, as the code has it: [save] never issues an update call for a member
    without a [member_id] and never a create call for one with a
    [member_id], and at most one call of the other kind.  It issues exactly
    one create call (and nothing else) when the member has an email and no
    cached groups, and exactly one update call (and nothing else) when the
    member has an email and a status.  Without an email it raises
    [NoMemberEmailError] on either path and issues no call. *)
Theorem save_dispatches_on_member_id (s : state W) (sid : value) :
  (_dict (self s) !! "member_id" = None →
   ∃ l, calls (save deps sid s).2 = calls s ++ l ∧
        count is_put l = 0%nat ∧ (count is_post l ≤ 1)%nat ∧
        (is_Some (_dict (self s) !! "email") → groups (self s) = ∅ →
         ∃ body, l = [adapter_post "/members/add" body])) ∧
  (∀ mid, _dict (self s) !! "member_id" = Some mid →
   ∃ l, calls (save deps sid s).2 = calls s ++ l ∧
        count is_post l = 0%nat ∧ (count is_put l ≤ 1)%nat ∧
        (is_Some (_dict (self s) !! "email") →
         is_Some (_dict (self s) !! "status") →
         ∃ body, l = [adapter_put ("/members/" +:+ format_s deps mid) (Some body)])) ∧
  (_dict (self s) !! "email" = None →
   save deps sid s = (Raise NoMemberEmailError, s)).
Proof.
  split_and!.
  - intros Hid. rewrite (save_without_id s sid Hid), (_add_run s sid Hid).
    destruct (_dict (self s) !! "email") as [e|] eqn:He.
    + rewrite extract_of_email by (rewrite He; eauto).
      destruct (dict_bool (groups (self s))) eqn:Hg.
      { exists (@nil request). rewrite app_nil_r. split_and!; [done|done|unfold count; simpl; lia|].
        intros _ Hg'. apply dict_bool_false in Hg'. congruence. }
      simpl. eexists (cons _ nil). split.
      { walk_response. }
      split_and!; [done|unfold count; simpl; lia|by eauto].
    + rewrite extract_of_no_email by done.
      exists (@nil request). rewrite app_nil_r. split_and!; [done|done|unfold count; simpl; lia|].
      by intros [? ?].
  - intros mid Hid. rewrite (save_with_id s sid mid Hid), (_update_run s mid Hid).
    destruct (_dict (self s) !! "email") as [e|] eqn:He.
    + rewrite extract_of_email by (rewrite He; eauto).
      destruct (_dict (self s) !! "status") as [st|] eqn:Hst.
      * simpl. eexists (cons _ nil). split.
        { walk_response. }
        split_and!; [done|unfold count; simpl; lia|by eauto].
      * exists (@nil request). rewrite app_nil_r. split_and!; [done|done|unfold count; simpl; lia|].
        by intros _ [? ?].
    + rewrite extract_of_no_email by done.
      exists (@nil request). rewrite app_nil_r. split_and!; [done|done|unfold count; simpl; lia|].
      by intros [? ?].
  - intros He. destruct (_dict (self s) !! "member_id") as [mid|] eqn:Hid.
    + rewrite (save_with_id s sid mid Hid), (_update_run s mid Hid).
      by rewrite extract_of_no_email.
    + rewrite (save_without_id s sid Hid), (_add_run s sid Hid).
      by rewrite extract_of_no_email.
Qed.

(** C6: once the [post] that [save] issued on the create path is answered
    with a response whose status code the factory resolves, the member's
    status is the resolved [Status]; its [member_id] is the one of the
    response when the response's [added] flag is truthy and stays absent
    otherwise; and no other field has changed. *)
Theorem add_assigns_status_and_server_id (s : state W) (sid : value)
    (body : value) (od : gmap string value) (w' : W) (c : value) (st : Status) :
  _dict (self s) !! "member_id" = None →
  calls (save deps sid s).2 = calls s ++ [adapter_post "/members/add" body] →
  adapter deps (remote s) (adapter_post "/members/add" body) = (Ok (VDict od), w') →
  od !! "status" = Some c →
  Status_factory deps c = Ok st →
  _dict (self (save deps sid s).2) !! "status" = Some (VStatus st) ∧
  _dict (self (save deps sid s).2) !! "member_id"
    = match od !! "added" with
      | Some added => if truthy added then od !! "member_id" else None
      | None => None
      end ∧
  (∀ k, k ≠ "status" → k ≠ "member_id" →
        _dict (self (save deps sid s).2) !! k = _dict (self s) !! k).
Proof.
  intros Hid. rewrite (save_without_id s sid Hid), (_add_run s sid Hid).
  destruct (extract_of deps None (self s)) as [data|?];
    [|simpl; intros Hx; by destruct (calls_not_extended _ _ Hx)].
  destruct (dict_bool (groups (self s)));
    [simpl; intros Hx; by destruct (calls_not_extended _ _ Hx)|].
  simpl. set (post := adapter_post _ _). intros Hc Ha Hs Hf.
  assert (post = adapter_post "/members/add" body) as Hpost.
  { assert (calls s ++ [post] = calls s ++ [adapter_post "/members/add" body]) as Hx.
    { rewrite <- Hc. walk_response. }
    apply app_inv_head in Hx. congruence. }
  clear Hc. rewrite Hpost, Ha. simpl. rewrite Hs, Hf.
  assert (∀ d' : gmap string value,
            d' = <["status" := VStatus st]> (_dict (self s)) →
            d' !! "status" = Some (VStatus st) ∧ d' !! "member_id" = None ∧
            (∀ k, k ≠ "status" → k ≠ "member_id" → d' !! k = _dict (self s) !! k))
    as Hstatus.
  { intros d' ->. split_and!.
    - by rewrite lookup_insert_eq.
    - by rewrite lookup_insert_ne.
    - intros k ? ?. by rewrite lookup_insert_ne. }
  destruct (od !! "added") as [added|]; simpl; [|by apply Hstatus].
  destruct (truthy added); [|by apply Hstatus].
  destruct (od !! "member_id") as [mid|] eqn:Hmid; simpl; [|by apply Hstatus].
  split_and!.
  - by rewrite lookup_insert_ne, lookup_insert_eq.
  - by rewrite lookup_insert_eq.
  - intros k ? ?. by rewrite !lookup_insert_ne.
Qed.

(** ** [opt_out] *)

Lemma opt_out_no_email (s : state W) :
  _dict (self s) !! "email" = None →
  opt_out deps s = (Raise NoMemberEmailError, s).
Proof.
  intros E. unfold opt_out, bind, get_self, raise.
  by rewrite (contains_None _ _ E).
Qed.

Lemma opt_out_email (s : state W) (email : value) :
  _dict (self s) !! "email" = Some email →
  let put := adapter_put ("/members/email/optout/" +:+ format_s deps email) None in
  let s1 := {| self := self s; remote := (adapter deps (remote s) put).2;
               calls := calls s ++ [put] |} in
  opt_out deps s =
    match (adapter deps (remote s) put).1 with
    | Ok r =>
        if truthy r
        then (Ok (), {| self := {| _dict := <["status" := VStatus OptOut]> (_dict (self s));
                                   groups := groups (self s);
                                   mailings := mailings (self s) |};
                        remote := remote s1; calls := calls s1 |})
        else (Ok (), s1)
    | Raise e => (Raise e, s1)
    end.
Proof.
  intros E put s1. unfold opt_out, bind, get_self, raise, lift, call, set_self, ret.
  rewrite (contains_Some _ _ _ E), (getitem_Some _ _ _ E). simpl.
  fold put. destruct (adapter deps (remote s) put) as [[r|e] w']; simpl; [|done].
  by destruct (truthy r).
Qed.

(** C7: without an email [opt_out] raises [NoMemberEmailError] and issues no
    call; with one it issues exactly one [put] to the opt-out path of that
    email, and the status becomes [OptOut] exactly when the answer is
    truthy: a falsy answer, or an exception of the adapter, leaves the
    member as it was. *)
Theorem opt_out_requires_email_and_commits_on_truthy (s : state W) :
  (_dict (self s) !! "email" = None →
     opt_out deps s = (Raise NoMemberEmailError, s)) ∧
  (∀ email res w',
     _dict (self s) !! "email" = Some email →
     adapter deps (remote s)
       (adapter_put ("/members/email/optout/" +:+ format_s deps email) None) = (res, w') →
     calls (opt_out deps s).2
       = calls s ++ [adapter_put ("/members/email/optout/" +:+ format_s deps email) None] ∧
     remote (opt_out deps s).2 = w' ∧
     match res with
     | Ok r =>
         (opt_out deps s).1 = Ok () ∧
         self (opt_out deps s).2 =
           if truthy r
           then {| _dict := <["status" := VStatus OptOut]> (_dict (self s));
                   groups := groups (self s); mailings := mailings (self s) |}
           else self s
     | Raise e =>
         (opt_out deps s).1 = Raise e ∧ self (opt_out deps s).2 = self s
     end).
Proof.
  split; [apply opt_out_no_email|].
  intros email res w' E A. rewrite (opt_out_email s email E), A. simpl.
  destruct res as [r|e]; [destruct (truthy r)|]; done.
Qed.

(** ** [get_opt_out_detail] *)

(** X21: [get_opt_out_detail] raises [NoMemberIdError] without a
    [member_id]; for a member with a [member_id] and a status field, it
    returns the empty list and issues no call when the status is not
    [OptOut], and when it is [OptOut] it issues one [get] to the opt-out
    history path and hands back what the adapter gave. *)
Theorem get_opt_out_detail_cases (s : state W) :
  (_dict (self s) !! "member_id" = None →
     get_opt_out_detail deps s = (Raise NoMemberIdError, s)) ∧
  (∀ mid st,
     _dict (self s) !! "member_id" = Some mid →
     _dict (self s) !! "status" = Some st →
     st ≠ VStatus OptOut →
     get_opt_out_detail deps s = (Ok (VList []), s)) ∧
  (∀ mid,
     _dict (self s) !! "member_id" = Some mid →
     _dict (self s) !! "status" = Some (VStatus OptOut) →
     let get := adapter_get ("/members/" +:+ format_s deps mid +:+ "/optout") in
     get_opt_out_detail deps s =
       ((adapter deps (remote s) get).1,
        {| self := self s; remote := (adapter deps (remote s) get).2;
           calls := calls s ++ [get] |})).
Proof.
  unfold get_opt_out_detail, bind, get_self, raise, lift, ret, call.
  split_and!.
  - intros E. by rewrite (contains_None _ _ E).
  - intros mid st E S N.
    rewrite (contains_Some _ _ _ E), (getitem_Some _ _ _ S). simpl.
    destruct st as [| | | |[]| |]; done.
  - intros mid E S.
    rewrite (contains_Some _ _ _ E), (getitem_Some _ _ _ S), (getitem_Some _ _ _ E).
    simpl. by destruct (adapter deps (remote s) _) as [[?|?] ?].
Qed.

(** With a [member_id] but no status field at all, the lookup of the status
    raises [KeyError]. *)
Lemma get_opt_out_detail_no_status (s : state W) mid :
  _dict (self s) !! "member_id" = Some mid →
  _dict (self s) !! "status" = None →
  get_opt_out_detail deps s = (Raise (KeyError "status"), s).
Proof.
  intros E S. unfold get_opt_out_detail, bind, get_self, raise, lift.
  by rewrite (contains_Some _ _ _ E), (getitem_None _ _ S).
Qed.

(** ** The caches under the operations of the model *)

Lemma _add_keeps_caches (s : state W) (sid : value) :
  _dict (self s) !! "member_id" = None →
  mailings (self (_add deps sid s).2) = mailings (self s) ∧
  groups (self (_add deps sid s).2) = groups (self s).
Proof.
  intros Hid. rewrite (_add_run s sid Hid).
  destruct (extract_of deps None (self s)) as [data|?]; [|done].
  destruct (dict_bool (groups (self s))); [done|]. simpl.
  walk_response.
Qed.

Lemma save_keeps_caches (s : state W) (sid : value) :
  mailings (self (save deps sid s).2) = mailings (self s) ∧
  groups (self (save deps sid s).2) = groups (self s).
Proof.
  destruct (_dict (self s) !! "member_id") as [mid|] eqn:Hid.
  - rewrite (save_with_id s sid mid Hid). by rewrite (_update_keeps_self s mid Hid).
  - rewrite (save_without_id s sid Hid). by apply _add_keeps_caches.
Qed.

Lemma opt_out_keeps_caches (s : state W) :
  mailings (self (opt_out deps s).2) = mailings (self s) ∧
  groups (self (opt_out deps s).2) = groups (self s).
Proof.
  destruct (_dict (self s) !! "email") as [e|] eqn:He.
  - rewrite (opt_out_email s e He). simpl.
    destruct (adapter deps (remote s) _).1 as [r|?]; [destruct (truthy r)|]; done.
  - by rewrite (opt_out_no_email s He).
Qed.

Lemma get_opt_out_detail_keeps_self (s : state W) :
  self (get_opt_out_detail deps s).2 = self s.
Proof.
  unfold get_opt_out_detail, bind, get_self, raise, lift, ret, call.
  destruct (contains (_dict (self s)) "member_id"); simpl; [|done].
  destruct (getitem (_dict (self s)) "status") as [st|?]; [|done].
  destruct (is_status OptOut st); simpl; [|done].
  destruct (getitem (_dict (self s)) "member_id") as [mid|?]; [|done].
  by destruct (adapter deps (remote s) _).
Qed.

Lemma has_opted_out_keeps_self (s : state W) :
  self (has_opted_out s).2 = self s.
Proof.
  unfold has_opted_out, bind, get_self, raise, lift, ret.
  destruct (contains (_dict (self s)) "status"); simpl; [|done].
  by destruct (getitem (_dict (self s)) "status").
Qed.

Lemma mailings_fetch_all_caches (s : state W) :
  groups (self (MemberMailingCollection_fetch_all deps s).2) = groups (self s) ∧
  (mailings (self s) ≠ ∅ →
   mailings (self (MemberMailingCollection_fetch_all deps s).2) = mailings (self s)).
Proof.
  destruct (_dict (self s) !! "member_id") as [mid|] eqn:Hid.
  - rewrite (mailings_fetch_all_run s mid Hid). split.
    + destruct (dict_bool (mailings (self s))); [done|]. simpl.
      by destruct (let* r0 := _ in _)%res.
    + intros Hne%dict_bool_true. by rewrite Hne.
  - by rewrite (mailings_fetch_all_without_id s Hid).
Qed.

Lemma groups_fetch_all_caches (s : state W) :
  mailings (self (MemberGroupCollection_fetch_all deps s).2) = mailings (self s) ∧
  (groups (self s) ≠ ∅ →
   groups (self (MemberGroupCollection_fetch_all deps s).2) = groups (self s)).
Proof.
  destruct (_dict (self s) !! "member_id") as [mid|] eqn:Hid.
  - rewrite (groups_fetch_all_run s mid Hid). split.
    + destruct (dict_bool (groups (self s))); [done|]. simpl.
      by destruct (let* r0 := _ in _)%res.
    + intros Hne%dict_bool_true. by rewrite Hne.
  - by rewrite (groups_fetch_all_without_id s Hid).
Qed.

Lemma perform_keeps_populated (o : operation) (s : state W) :
  (mailings (self s) ≠ ∅ → mailings (self (perform deps o s)) = mailings (self s)) ∧
  (groups (self s) ≠ ∅ → groups (self (perform deps o s)) = groups (self s)).
Proof.
  destruct o; simpl.
  - done.
  - destruct (opt_out_keeps_caches s). by split.
  - by rewrite get_opt_out_detail_keeps_self.
  - by rewrite has_opted_out_keeps_self.
  - done.
  - destruct (save_keeps_caches s signup_form_id). by split.
  - destruct (mailings_fetch_all_caches s). by split.
  - destruct (groups_fetch_all_caches s). by split.
Qed.

Lemma perform_all_keeps_populated (ops : list operation) :
  ∀ s : state W,
  (mailings (self s) ≠ ∅ → mailings (self (perform_all deps ops s)) = mailings (self s)) ∧
  (groups (self s) ≠ ∅ → groups (self (perform_all deps ops s)) = groups (self s)).
Proof.
  induction ops as [|o ops IH]; intros s; [done|].
  simpl. destruct (perform_keeps_populated o s) as [Hm Hg].
  destruct (IH (perform deps o s)) as [IHm IHg]. split.
  - intros Hne. rewrite <- (Hm Hne). apply IHm. by rewrite (Hm Hne).
  - intros Hne. rewrite <- (Hg Hne). apply IHg. by rewrite (Hg Hne).
Qed.

(** C5, as the code has it: for a member with a [member_id] and an empty
    cache, when the first [fetch_all] of a collection returns a mapping
    that is not empty, the second one returns that same mapping, changes
    nothing, and the two have issued exactly one [get] between them; and a
    cache that is not empty stays as it is under every sequence of
    operations of the model. *)
Theorem fetch_all_memoizes_populated_cache (s : state W) :
  (∀ mid d,
     _dict (self s) !! "member_id" = Some mid →
     mailings (self s) = ∅ →
     (MemberMailingCollection_fetch_all deps s).1 = Ok d →
     d ≠ ∅ →
     let s1 := (MemberMailingCollection_fetch_all deps s).2 in
     MemberMailingCollection_fetch_all deps s1 = (Ok d, s1) ∧
     calls s1 = calls s ++ [adapter_get ("/members/" +:+ format_s deps mid +:+ "/mailings")]) ∧
  (∀ mid d,
     _dict (self s) !! "member_id" = Some mid →
     groups (self s) = ∅ →
     (MemberGroupCollection_fetch_all deps s).1 = Ok d →
     d ≠ ∅ →
     let s1 := (MemberGroupCollection_fetch_all deps s).2 in
     MemberGroupCollection_fetch_all deps s1 = (Ok d, s1) ∧
     calls s1 = calls s ++ [adapter_get ("/members/" +:+ format_s deps mid +:+ "/groups")]) ∧
  (∀ ops, mailings (self s) ≠ ∅ →
          mailings (self (perform_all deps ops s)) = mailings (self s)) ∧
  (∀ ops, groups (self s) ≠ ∅ →
          groups (self (perform_all deps ops s)) = groups (self s)).
Proof.
  split_and!.
  - intros mid d Hid Hm. rewrite (mailings_fetch_all_run s mid Hid).
    rewrite (proj2 (dict_bool_false _) Hm). simpl.
    destruct (let* r0 := _ in _)%res as [d'|?]; simpl; [|done].
    intros [= ->] Hne. split; [|done].
    rewrite (mailings_fetch_all_run _ mid) by done. simpl.
    by rewrite (proj2 (dict_bool_true _) Hne).
  - intros mid d Hid Hm. rewrite (groups_fetch_all_run s mid Hid).
    rewrite (proj2 (dict_bool_false _) Hm). simpl.
    destruct (let* r0 := _ in _)%res as [d'|?]; simpl; [|done].
    intros [= ->] Hne. split; [|done].
    rewrite (groups_fetch_all_run _ mid) by done. simpl.
    by rewrite (proj2 (dict_bool_true _) Hne).
  - intros ops. apply perform_all_keeps_populated.
  - intros ops. apply perform_all_keeps_populated.
Qed.

End MemberFacts.

(** * Scenarios *)

Section Scenarios.
Import Member Fixture.

(** C1 as stated fails: [save] on a member without [member_id] and without
    an email raises [NoMemberEmailError] and issues no call at all. *)
Lemma save_without_email_issues_no_call :
  _dict (member ∅) !! "member_id" = None ∧
  save (deps []) VNone (start (member ∅) []) = (Raise NoMemberEmailError, start (member ∅) []) ∧
  count is_post (calls (save (deps []) VNone (start (member ∅) [])).2) = 0%nat.
Proof. split_and!; reflexivity. Qed.

Lemma save_dispatches_on_member_id_witness :
  let new : gmap string value := <["email" := VStr "new@example.com"]> ∅ in
  let old := <["member_id" := VInt 55]> (<["status" := VStatus Active]> new) in
  (∃ l, calls (save (deps []) VNone (start (member new) [])).2 = l ∧
        count is_put l = 0%nat ∧ (count is_post l ≤ 1)%nat ∧
        ∃ body, l = [adapter_post "/members/add" body]) ∧
  (∃ l, calls (save (deps []) VNone (start (member old) [])).2 = l ∧
        count is_post l = 0%nat ∧ (count is_put l ≤ 1)%nat ∧
        ∃ body, l = [adapter_put "/members/55" (Some body)]) ∧
  save (deps []) VNone (start (member (<["member_id" := VInt 55]> ∅)) [])
    = (Raise NoMemberEmailError, start (member (<["member_id" := VInt 55]> ∅)) []).
Proof.
  intros new old. split_and!.
  - destruct (proj1 (save_dispatches_on_member_id (deps []) (start (member new) []) VNone)
                eq_refl) as (l & Hc & Hput & Hpost & Hone).
    exists l. repeat (split; [assumption|]).
    apply Hone; [by eexists|reflexivity].
  - destruct (proj1 (proj2 (save_dispatches_on_member_id (deps [])
                              (start (member old) []) VNone))
                (VInt 55) eq_refl) as (l & Hc & Hpost & Hput & Hone).
    exists l. repeat (split; [assumption|]).
    apply Hone; by eexists.
  - apply (proj2 (proj2 (save_dispatches_on_member_id (deps [])
                           (start (member (<["member_id" := VInt 55]> ∅)) []) VNone))).
    reflexivity.
Defined.

(** A 404 on [post] gives [None]. *)
Lemma adapter_result_by_status_witness :
  (RequestsAdapter.post (λ (w : unit) _, (Response 404 (VStr "not found"), w)) (λ _, "")
     (RequestsAdapter.init "1234" "08192a3b4c5d6e7f" "f7e6d5c4b3a29180")
     () "/members/add" VNone).1 = Ok VNone.
Proof.
  destruct (adapter_result_by_status
              (λ (w : unit) _, (Response 404 (VStr "not found"), w)) (λ _, "")
              (RequestsAdapter.init "1234" "08192a3b4c5d6e7f" "f7e6d5c4b3a29180")
              () "/members/add" VNone) as [[H404 _] _].
  apply H404. reflexivity.
Defined.

(** The member of the update scenarios, with a given status. *)
Lemma update_body_status_to_witness :
  let d st : gmap string value :=
    <["member_id" := VInt 55]> (<["email" := VStr "a@b.com"]> (<["status" := VStatus st]> ∅)) in
  (∃ body,
     calls (save (deps []) VNone (start (member (d Active)) [Ok (VBool true)])).2
       = [adapter_put "/members/55" (Some (VDict body))] ∧
     body !! "status_to" = Some (VStr "a")) ∧
  (∃ body,
     calls (save (deps []) VNone (start (member (d Forwarded)) [Ok (VBool true)])).2
       = [adapter_put "/members/55" (Some (VDict body))] ∧
     body !! "status_to" = None).
Proof.
  intros d. split.
  - destruct (update_body_status_to (deps []) (start (member (d Active)) [Ok (VBool true)])
                VNone (VInt 55) (VStr "a@b.com") (VStatus Active) eq_refl eq_refl eq_refl)
      as (body & Hc & [(x & Hx & _ & Hb)|[Hn _]]).
    + exists body. split; [exact Hc|]. injection Hx as <-. exact Hb.
    + destruct (Hn Active); [constructor|reflexivity].
  - destruct (update_body_status_to (deps []) (start (member (d Forwarded)) [Ok (VBool true)])
                VNone (VInt 55) (VStr "a@b.com") (VStatus Forwarded) eq_refl eq_refl eq_refl)
      as (body & Hc & [(x & Hx & Hin & _)|[_ Hb]]).
    + injection Hx as <-. exfalso. revert Hin. rewrite !elem_of_cons, elem_of_nil.
      intros [?|[?|[?|[]]]]; discriminate.
    + exists body. split; [exact Hc|exact Hb].
Defined.

(** The fourth scenario of the specification: the [put] is answered with
    [None]. *)
Lemma update_falsy_raises_and_keeps_fields_witness :
  let d : gmap string value :=
    <["member_id" := VInt 55]> (<["email" := VStr "a@b.com"]> (<["status" := VStatus Active]> ∅)) in
  let s := start (member d) [Ok VNone] in
  (save (deps []) VNone s).1 = Raise MemberUpdateError ∧
  self (save (deps []) VNone s).2 = self s.
Proof.
  intros d s.
  eapply (update_falsy_raises_and_keeps_fields (deps []) s VNone (VInt 55)).
  - reflexivity.
  - vm_compute. reflexivity.
  - reflexivity.
  - reflexivity.
Defined.
(** The second scenario of the specification: one group named VIP. *)
Lemma fetch_all_memoizes_populated_cache_witness :
  let vip := VDict (<["group_name" := VStr "VIP"]> (<["group_id" := VInt 1]> ∅)) in
  let s := start (member (<["member_id" := VInt 5]> ∅)) [Ok (VList [vip])] in
  let d : gmap hkey value := <[KStr "VIP" := vip]> ∅ in
  let s1 := (MemberGroupCollection_fetch_all (deps []) s).2 in
  (MemberGroupCollection_fetch_all (deps []) s).1 = Ok d ∧
  MemberGroupCollection_fetch_all (deps []) s1 = (Ok d, s1) ∧
  calls s1 = [adapter_get "/members/5/groups"].
Proof.
  intros vip s d s1. split; [reflexivity|].
  apply (proj1 (proj2 (fetch_all_memoizes_populated_cache (deps []) s)) (VInt 5) d).
  - reflexivity.
  - reflexivity.
  - reflexivity.
  - apply insert_non_empty.
Defined.

(** C5 as stated fails: when the answer to the first [get] is an empty
    list, the second [fetch_all] asks again, two calls in total. *)
Lemma two_empty_fetches_issue_two_gets :
  let s := start (member (<["member_id" := VInt 5]> ∅)) [Ok (VList []); Ok (VList [])] in
  let s1 := (MemberGroupCollection_fetch_all (deps []) s).2 in
  groups (self s) = ∅ ∧
  calls (MemberGroupCollection_fetch_all (deps []) s1).2
    = [adapter_get "/members/5/groups"; adapter_get "/members/5/groups"] ∧
  count is_get (calls (MemberGroupCollection_fetch_all (deps []) s1).2) = 2%nat.
Proof. split_and!; vm_compute; reflexivity. Qed.

(** The third scenario of the specification. *)
Lemma add_assigns_status_and_server_id_witness :
  let od : gmap string value :=
    <["added" := VBool true]> (<["member_id" := VInt 55]> (<["status" := VStr "a"]> ∅)) in
  let s := start (member (<["email" := VStr "a@b.com"]> ∅)) [Ok (VDict od)] in
  _dict (self (save (deps []) VNone s).2) !! "status" = Some (VStatus Active) ∧
  _dict (self (save (deps []) VNone s).2) !! "member_id" = Some (VInt 55) ∧
  (∀ k, k ≠ "status" → k ≠ "member_id" →
        _dict (self (save (deps []) VNone s).2) !! k = _dict (self s) !! k).
Proof.
  intros od s.
  eapply (add_assigns_status_and_server_id (deps []) s VNone _ od _ (VStr "a") Active).
  - reflexivity.
  - vm_compute. reflexivity.
  - reflexivity.
  - reflexivity.
  - reflexivity.
Defined.

Lemma opt_out_requires_email_and_commits_on_truthy_witness :
  let with_email := member (<["email" := VStr "a@b.com"]> ∅) in
  opt_out (deps []) (start (member ∅) []) = (Raise NoMemberEmailError, start (member ∅) []) ∧
  (calls (opt_out (deps []) (start with_email [Ok (VBool true)])).2
     = [adapter_put "/members/email/optout/a@b.com" None] ∧
   _dict (self (opt_out (deps []) (start with_email [Ok (VBool true)])).2) !! "status"
     = Some (VStatus OptOut)) ∧
  self (opt_out (deps []) (start with_email [Ok (VBool false)])).2 = with_email.
Proof.
  intros with_email. split_and!.
  - apply (proj1 (opt_out_requires_email_and_commits_on_truthy (deps [])
                    (start (member ∅) []))).
    reflexivity.
  - destruct (proj2 (opt_out_requires_email_and_commits_on_truthy (deps [])
                      (start with_email [Ok (VBool true)]))
                (VStr "a@b.com") (Ok (VBool true)) [] eq_refl eq_refl) as (Hc & _ & _ & Hs).
    exact Hc.
  - destruct (proj2 (opt_out_requires_email_and_commits_on_truthy (deps [])
                      (start with_email [Ok (VBool true)]))
                (VStr "a@b.com") (Ok (VBool true)) [] eq_refl eq_refl) as (_ & _ & _ & Hs).
    rewrite Hs. reflexivity.
  - destruct (proj2 (opt_out_requires_email_and_commits_on_truthy (deps [])
                      (start with_email [Ok (VBool false)]))
                (VStr "a@b.com") (Ok (VBool false)) [] eq_refl eq_refl) as (_ & _ & _ & Hs).
    exact Hs.
Defined.

Lemma parse_then_extract_keeps_identity_and_email_witness :
  let raw : gmap string value :=
    <["member_id" := VInt 123]> (<["email" := VStr "a@b.com"]> (<["status" := VStr "a"]>
      (<["fields" := VDict (<["first_name" := VStr "X"]> ∅)]> ∅))) in
  (∃ body, parse_then_extract (deps ["first_name"]) raw = Ok body ∧
           body !! "member_id" = Some (VInt 123) ∧
           body !! "email" = Some (VStr "a@b.com")) ∧
  parse_then_extract (deps ["first_name"]) scenario_raw = Ok scenario_body.
Proof.
  intros raw. split.
  - apply (proj1 (parse_then_extract_keeps_identity_and_email (deps ["first_name"]) raw)).
    + by eexists.
    + intros c [= <-]. by exists Active.
    + right. eexists. split; [reflexivity|]. split; reflexivity.
  - apply (proj2 (parse_then_extract_keeps_identity_and_email (deps ["first_name"])
                    scenario_raw)).
    apply list_elem_of_here.
Defined.

(** C8 as stated fails three ways: a nested ["fields"] that names [email]
    replaces the email of the raw dict; in an account without shortcuts the
    raw dict of the first scenario yields a body without ["fields"]; and a
    raw dict without an email yields no body at all. *)
Lemma parse_then_extract_loses_fields_or_email :
  parse_then_extract (deps [])
      (<["email" := VStr "a@b.com"]> (<["status" := VStr "a"]>
         (<["fields" := VDict (<["email" := VStr "x@y.com"]> ∅)]> ∅)))
    = Ok (<["email" := VStr "x@y.com"]> ∅) ∧
  parse_then_extract (deps []) scenario_raw
    = Ok (<["member_id" := VInt 123]> (<["email" := VStr "a@b.com"]> ∅)) ∧
  parse_then_extract (deps []) (<["member_id" := VInt 123]> (<["status" := VStr "a"]> ∅))
    = Raise NoMemberEmailError.
Proof. split_and!; vm_compute; reflexivity. Qed.

Lemma get_opt_out_detail_cases_witness :
  let history := VList [VDict (<["opt_out_tstamp" := VStr "2011-01-01"]> ∅)] in
  let d st : gmap string value :=
    <["member_id" := VInt 123]> (<["status" := VStatus st]> ∅) in
  get_opt_out_detail (deps []) (start (member ∅) [Ok history])
    = (Raise NoMemberIdError, start (member ∅) [Ok history]) ∧
  get_opt_out_detail (deps []) (start (member (d Active)) [Ok history])
    = (Ok (VList []), start (member (d Active)) [Ok history]) ∧
  get_opt_out_detail (deps []) (start (member (d OptOut)) [Ok history])
    = (Ok history, {| self := member (d OptOut); remote := [];
                      calls := [adapter_get "/members/123/optout"] |}).
Proof.
  intros history d. split_and!.
  - apply (proj1 (get_opt_out_detail_cases (deps []) (start (member ∅) [Ok history]))).
    reflexivity.
  - apply (proj1 (proj2 (get_opt_out_detail_cases (deps [])
                           (start (member (d Active)) [Ok history])))
             (VInt 123) (VStatus Active)); [reflexivity|reflexivity|discriminate].
  - rewrite (proj2 (proj2 (get_opt_out_detail_cases (deps [])
                             (start (member (d OptOut)) [Ok history])))
               (VInt 123) eq_refl eq_refl).
    reflexivity.
Defined.

Lemma empty_fetch_is_refetched_witness :
  let s := start (member (<["member_id" := VInt 5]> ∅)) [Ok (VList []); Ok (VList [])] in
  let s1 := (MemberGroupCollection_fetch_all (deps []) s).2 in
  (MemberGroupCollection_fetch_all (deps []) s).1 = Ok ∅ ∧
  groups (self s1) = ∅ ∧
  calls s1 = [adapter_get "/members/5/groups"] ∧
  calls (MemberGroupCollection_fetch_all (deps []) s1).2
    = [adapter_get "/members/5/groups"; adapter_get "/members/5/groups"].
Proof.
  intros s s1.
  apply (proj2 (empty_fetch_is_refetched (deps []) s (VInt 5) eq_refl)
           (VList []) [Ok (VList [])]); reflexivity.
Defined.

End Scenarios.

(** * Further properties of the member model *)

Section MoreMemberFacts.
Import Member.
Context {W : Type}.
Variable deps : Deps W.

(** ** [has_opted_out] *)

(** X1: [has_opted_out] raises [NoMemberStatusError] when the member has no
    status; otherwise it answers whether the status is [OptOut]; in every
    case the state, the log of calls included, is untouched. *)
Theorem has_opted_out_cases (s : state W) :
  (_dict (self s) !! "status" = None →
   has_opted_out s = (Raise NoMemberStatusError, s)) ∧
  (_dict (self s) !! "status" = Some (VStatus OptOut) →
   has_opted_out s = (Ok true, s)) ∧
  (∀ st, _dict (self s) !! "status" = Some st → st ≠ VStatus OptOut →
   has_opted_out s = (Ok false, s)).
Proof.
  unfold has_opted_out, bind, get_self, raise, lift, ret. split_and!.
  - intros E. by rewrite (contains_None _ _ E).
  - intros E. by rewrite (contains_Some _ _ _ E), (getitem_Some _ _ _ E).
  - intros st E N. rewrite (contains_Some _ _ _ E), (getitem_Some _ _ _ E).
    destruct st as [| | | |[]| |]; done.
Qed.

(** ** [_parse_raw] *)

Lemma _parse_raw_status_step (raw : gmap string value) (c : value) (st : Status) :
  raw !! "status" = Some c → Status_factory deps c = Ok st →
  (if contains raw "status"
   then let* c := getitem raw "status" in
        let* s := Status_factory deps c in
        Ok (<["status" := VStatus s]> raw)
   else Ok raw)%res = Ok (<["status" := VStatus st]> raw).
Proof.
  intros Hc Hf. rewrite (contains_Some _ _ _ Hc), (getitem_Some _ _ _ Hc).
  simpl. by rewrite Hf.
Qed.

(** X2: a successful [_parse_raw] never leaves a ["fields"] key behind, and
    when the raw dict nests a dict under ["fields"] (and its status code, if
    any, resolves) every entry of that dict ends up at the top level with
    its nested value, also where the raw dict had the same key at the top. *)
Theorem parse_raw_flattens_fields (raw : gmap string value) :
  (∀ d, _parse_raw deps raw = Ok d → d !! "fields" = None) ∧
  (∀ f, raw !! "fields" = Some (VDict f) →
        (∀ c, raw !! "status" = Some c → ∃ st, Status_factory deps c = Ok st) →
        ∃ d, _parse_raw deps raw = Ok d ∧
             ∀ k v, k ≠ "fields" → f !! k = Some v → d !! k = Some v).
Proof.
  split.
  - intros d. unfold _parse_raw.
    destruct (if contains raw "status" then _ else _)%res as [raw1|?]; [|done].
    simpl. set (raw2 := if contains raw1 "member_status_id" then _ else _).
    destruct (raw2 !! "fields") as [x|] eqn:Hx.
    + rewrite (contains_Some _ _ _ Hx), (getitem_Some _ _ _ Hx). simpl.
      destruct (update raw2 x) as [raw3|?]; [|done]. simpl.
      intros [= <-]. apply lookup_delete_eq.
    + rewrite (contains_None _ _ Hx). by intros [= <-].
  - intros f Hf Hst. unfold _parse_raw.
    set (raw1 := (if contains raw "status" then _ else _)%res).
    assert (∃ d1, raw1 = Ok d1 ∧ d1 !! "fields" = Some (VDict f)) as (d1 & -> & Hf1).
    { subst raw1. destruct (raw !! "status") as [c|] eqn:Hc.
      - destruct (Hst c eq_refl) as [st Hres].
        rewrite (_parse_raw_status_step raw c st Hc Hres).
        eexists. split; [done|]. by rewrite lookup_insert_ne.
      - rewrite (contains_None _ _ Hc). by eexists. }
    simpl. set (d2 := if contains d1 "member_status_id" then _ else _).
    assert (d2 !! "fields" = Some (VDict f)) as Hf2.
    { subst d2. destruct (contains d1 "member_status_id"); [|done].
      by rewrite lookup_delete_ne. }
    rewrite (contains_Some _ _ _ Hf2), (getitem_Some _ _ _ Hf2). simpl.
    eexists. split; [done|]. intros k v Hk Hv.
    rewrite lookup_delete_ne by done. by apply lookup_union_Some_l.
Qed.

(** X3: when the status code of a raw dict resolves and no nested
    ["fields"] dict names the keys in question, the parsed dict holds the
    resolved [Status] under ["status"], has no ["member_status_id"], and
    agrees with the raw dict on every other key but ["fields"]. *)
Theorem parse_raw_resolves_status (raw : gmap string value) (c : value) (st : Status) :
  raw !! "status" = Some c →
  Status_factory deps c = Ok st →
  (raw !! "fields" = None ∨
   ∃ f, raw !! "fields" = Some (VDict f) ∧
        f !! "status" = None ∧ f !! "member_status_id" = None) →
  ∃ d, _parse_raw deps raw = Ok d ∧
       d !! "status" = Some (VStatus st) ∧
       d !! "member_status_id" = None ∧
       (∀ k, k ≠ "status" → k ≠ "member_status_id" → k ≠ "fields" →
             (∀ f, raw !! "fields" = Some (VDict f) → f !! k = None) →
             d !! k = raw !! k).
Proof.
  intros Hc Hres Hf. unfold _parse_raw.
  rewrite (_parse_raw_status_step raw c st Hc Hres). simpl.
  set (raw1 := <["status" := VStatus st]> raw).
  set (d2 := if contains raw1 "member_status_id" then _ else _).
  assert (d2 !! "member_status_id" = None ∧ d2 !! "status" = Some (VStatus st) ∧
          d2 !! "fields" = raw !! "fields" ∧
          ∀ k, k ≠ "status" → k ≠ "member_status_id" → d2 !! k = raw !! k)
    as (Hm & Hs & Hfd & Hk).
  { subst d2. destruct (contains raw1 "member_status_id") eqn:E.
    - split_and!.
      + apply lookup_delete_eq.
      + rewrite lookup_delete_ne by done. apply lookup_insert_eq.
      + rewrite lookup_delete_ne by done. by apply lookup_insert_ne.
      + intros k ? ?. rewrite lookup_delete_ne by done. by apply lookup_insert_ne.
    - split_and!.
      + unfold contains in E. apply bool_decide_eq_false in E.
        by apply eq_None_not_Some.
      + apply lookup_insert_eq.
      + by apply lookup_insert_ne.
      + intros k ? ?. by apply lookup_insert_ne. }
  destruct Hf as [Hf|(f & Hf & Hfs & Hfm)].
  - rewrite (contains_None d2 "fields") by congruence.
    eexists. split_and!; [done|done|done|]. intros k ? ? ? _. by apply Hk.
  - rewrite (contains_Some d2 "fields" (VDict f)) by congruence.
    rewrite (getitem_Some d2 "fields" (VDict f)) by congruence. simpl.
    eexists. split_and!; [done| | |].
    + rewrite lookup_delete_ne by done. by rewrite lookup_union_r.
    + rewrite lookup_delete_ne by done. by rewrite lookup_union_r.
    + intros k ? ? ? Hnk. rewrite lookup_delete_ne by done.
      rewrite lookup_union_r by eauto. by apply Hk.
Qed.

(** X4: [_parse_raw] fails with the exception of the status factory when
    the status code does not resolve, and with [TypeError] when the status
    is fine or absent and ["fields"] holds [None], a boolean or a number. *)
Theorem parse_raw_failures (raw : gmap string value) :
  (∀ c e, raw !! "status" = Some c → Status_factory deps c = Raise e →
          _parse_raw deps raw = Raise e) ∧
  (∀ x, raw !! "fields" = Some x →
        (x = VNone ∨ (∃ b, x = VBool b) ∨ (∃ z, x = VInt z)) →
        (∀ c, raw !! "status" = Some c → ∃ st, Status_factory deps c = Ok st) →
        _parse_raw deps raw = Raise TypeError).
Proof.
  split.
  - intros c e Hc He. unfold _parse_raw.
    rewrite (contains_Some _ _ _ Hc), (getitem_Some _ _ _ Hc). simpl.
    by rewrite He.
  - intros x Hx Hbad Hst. unfold _parse_raw.
    set (raw1 := (if contains raw "status" then _ else _)%res).
    assert (∃ d1, raw1 = Ok d1 ∧ d1 !! "fields" = Some x) as (d1 & -> & Hf1).
    { subst raw1. destruct (raw !! "status") as [c|] eqn:Hc.
      - destruct (Hst c eq_refl) as [st Hres].
        rewrite (_parse_raw_status_step raw c st Hc Hres).
        eexists. split; [done|]. by rewrite lookup_insert_ne.
      - rewrite (contains_None _ _ Hc). by eexists. }
    simpl. set (d2 := if contains d1 "member_status_id" then _ else _).
    assert (d2 !! "fields" = Some x) as Hf2.
    { subst d2. destruct (contains d1 "member_status_id"); [|done].
      by rewrite lookup_delete_ne. }
    rewrite (contains_Some _ _ _ Hf2), (getitem_Some _ _ _ Hf2). simpl.
    by destruct Hbad as [->|[[b ->]|[z ->]]].
Qed.

(** ** [extract] and the round trips with [_parse_raw] *)

Lemma wire_body_fields (top_level shortcuts : list string) (d : gmap string value) :
  "fields" ∉ top_level →
  wire_body top_level shortcuts d !! "fields"
  = if dict_bool (filter (λ kv : string * value,
                            (kv.1 ∉ top_level) ∧ (kv.1 ∈ shortcuts)) d)
    then Some (VDict (filter (λ kv : string * value,
                                (kv.1 ∉ top_level) ∧ (kv.1 ∈ shortcuts)) d))
    else None.
Proof.
  intros Hf. unfold wire_body, assemble. destruct (dict_bool _).
  - apply lookup_insert_eq.
  - rewrite map_lookup_filter. destruct (d !! "fields"); simpl; [|done].
    by rewrite option_guard_False.
Qed.

(** X5: with a [top_level] that does not name ["fields"] and a member that
    has an email, [extract] keeps the entries named in [top_level] at the
    top and has no other top-level key but ["fields"]; ["fields"] is absent
    when no other entry is a shortcut of the account, and otherwise holds
    exactly the entries that are shortcuts and not in [top_level]. *)
Theorem extract_partitions_fields (top_level : list string) (m : Member.t) :
  "fields" ∉ top_level →
  is_Some (_dict m !! "email") →
  ∃ body,
    extract_of deps (Some top_level) m = Ok body ∧
    (∀ k, k ∈ top_level → body !! k = _dict m !! k) ∧
    (∀ k, k ∉ top_level → k ≠ "fields" → body !! k = None) ∧
    ((∀ k, is_Some (_dict m !! k) → k ∈ top_level ∨ k ∉ export_shortcuts deps) →
     body !! "fields" = None) ∧
    (∀ k v, _dict m !! k = Some v → k ∉ top_level → k ∈ export_shortcuts deps →
       ∃ f, body !! "fields" = Some (VDict f) ∧
            ∀ k' v', f !! k' = Some v' ↔
                     _dict m !! k' = Some v' ∧ (k' ∉ top_level) ∧
                     k' ∈ export_shortcuts deps).
Proof.
  intros Hf He. rewrite extract_of_wire_body by done.
  eexists. split; [done|]. split_and!.
  - intros k Hk. apply wire_body_lookup_top; [done|]. by intros ->.
  - intros k Hk Hkf. by apply wire_body_lookup_other.
  - intros Hnone. rewrite wire_body_fields by done.
    destruct (dict_bool _) eqn:E; [|done].
    apply dict_bool_true in E. destruct E. apply map_empty. intros k.
    apply map_lookup_filter_None. right. intros v Hv [Hn Hs]. simpl in *.
    destruct (Hnone k) as [?|?]; eauto.
  - intros k v Hv Hk Hs. rewrite wire_body_fields by done.
    destruct (dict_bool _) eqn:E.
    + eexists. split; [done|]. intros k' v'.
      rewrite map_lookup_filter_Some. simpl. tauto.
    + apply dict_bool_false in E.
      apply (f_equal (lookup k)) in E. rewrite lookup_empty in E.
      apply map_lookup_filter_None in E as [E|E]; [congruence|].
      destruct (E v Hv). by split.
Qed.

Lemma _parse_raw_nested (raw f : gmap string value) :
  raw !! "status" = None → raw !! "member_status_id" = None →
  raw !! "fields" = Some (VDict f) →
  _parse_raw deps raw = Ok (delete "fields" (f ∪ raw)).
Proof.
  intros H1 H2 H3. unfold _parse_raw.
  rewrite (contains_None _ _ H1). simpl.
  rewrite (contains_None _ _ H2).
  by rewrite (contains_Some _ _ _ H3), (getitem_Some _ _ _ H3).
Qed.

(** X6: a member that has an email and no ["fields"] entry, and whose
    entries are all [member_id], [email] or shortcuts of the account, is
    given back by [_parse_raw] from the wire body [extract] builds of it. *)
Theorem extract_then_parse_round_trip (m : Member.t) :
  is_Some (_dict m !! "email") →
  _dict m !! "fields" = None →
  (∀ k, is_Some (_dict m !! k) →
        k ∈ ["member_id"; "email"] ∨ k ∈ export_shortcuts deps) →
  ∃ body, extract_of deps None m = Ok body ∧
          _parse_raw deps body = Ok (_dict m).
Proof.
  intros He Hnf Hkeys. rewrite extract_of_email by done.
  eexists. split; [done|].
  set (top := ["member_id"; "email"]).
  set (body := wire_body top (export_shortcuts deps) (_dict m)).
  assert ("fields" ∉ top) as Hft.
  { subst top. rewrite !not_elem_of_cons. split_and!; [done|done|apply not_elem_of_nil]. }
  assert (∀ k, k ∉ top → k ≠ "fields" → body !! k = None) as Hother.
  { intros k ? ?. by apply wire_body_lookup_other. }
  assert (∀ k, k ∈ top → body !! k = _dict m !! k) as Htop.
  { intros k ?. apply wire_body_lookup_top; [done|]. by intros ->. }
  assert (body !! "status" = None) as Hs.
  { apply Hother; [|done]. subst top. rewrite !not_elem_of_cons.
    split_and!; [done|done|apply not_elem_of_nil]. }
  assert (body !! "member_status_id" = None) as Hm.
  { apply Hother; [|done]. subst top. rewrite !not_elem_of_cons.
    split_and!; [done|done|apply not_elem_of_nil]. }
  pose proof (wire_body_fields top (export_shortcuts deps) (_dict m) Hft) as Hfields.
  fold body in Hfields.
  set (F := filter _ (_dict m)) in Hfields.
  assert (∀ k v, F !! k = Some v ↔
                 _dict m !! k = Some v ∧ (k ∉ top) ∧ k ∈ export_shortcuts deps) as HF.
  { intros k v. subst F. rewrite map_lookup_filter_Some. simpl. tauto. }
  destruct (dict_bool F) eqn:E.
  - rewrite (_parse_raw_nested body F) by done. f_equal.
    apply map_eq. intros k. destruct (decide (k = "fields")) as [->|Hk].
    { by rewrite lookup_delete_eq. }
    rewrite lookup_delete_ne by done.
    destruct (_dict m !! k) as [v|] eqn:Hv.
    + destruct (decide (k ∈ top)) as [Hin|Hin].
      * rewrite lookup_union_r.
        { by rewrite Htop. }
        apply eq_None_not_Some. intros [v' Hv']. apply HF in Hv'. tauto.
      * apply lookup_union_Some_l. apply HF. split_and!; [done|done|].
        destruct (Hkeys k) as [?|?]; [by eexists|done|done].
    + apply lookup_union_None. split.
      * apply eq_None_not_Some. intros [v' Hv']. apply HF in Hv'.
        destruct Hv' as [? _]. congruence.
      * destruct (decide (k ∈ top)); [by rewrite Htop|by apply Hother].
  - rewrite _parse_raw_plain by done. f_equal.
    apply map_eq. intros k. destruct (decide (k = "fields")) as [->|Hk].
    { by rewrite Hfields, Hnf. }
    destruct (decide (k ∈ top)) as [Hin|Hin]; [by apply Htop|].
    rewrite Hother by done. symmetry. apply eq_None_not_Some. intros [v Hv].
    apply dict_bool_false in E. apply (f_equal (lookup k)) in E.
    rewrite lookup_empty in E. apply eq_None_not_Some in E. apply E.
    exists v. apply HF. split_and!; [done|done|].
    destruct (Hkeys k) as [?|?]; [by eexists|done|done].
Qed.

(** X7: a raw dict in wire shape (an email, at most a [member_id] besides,
    and either no ["fields"] or a non-empty nested dict of shortcuts of the
    account other than the top-level names) comes back unchanged from
    [_parse_raw] followed by [extract]. *)
Theorem parse_then_extract_round_trip (raw : gmap string value) :
  is_Some (raw !! "email") →
  (∀ k, is_Some (raw !! k) → k ∈ ["member_id"; "email"; "fields"]) →
  (raw !! "fields" = None ∨
   ∃ f, raw !! "fields" = Some (VDict f) ∧ f ≠ ∅ ∧
        ∀ k, is_Some (f !! k) →
             k ∈ export_shortcuts deps ∧ k ∉ ["member_id"; "email"; "fields"]) →
  parse_then_extract deps raw = Ok raw.
Proof.
  intros He Hkeys Hf.
  set (top := ["member_id"; "email"]).
  assert (∀ k, k ∉ ["member_id"; "email"; "fields"] → raw !! k = None) as Hout.
  { intros k Hk. apply eq_None_not_Some. intros Hs. by apply Hk, Hkeys. }
  assert ("fields" ∉ top) as Hft.
  { subst top. rewrite !not_elem_of_cons. split_and!; [done|done|apply not_elem_of_nil]. }
  assert (∀ k, k ∈ top → k ∈ ["member_id"; "email"; "fields"] ∧ k ≠ "fields") as Htop3.
  { subst top. intros k. rewrite !elem_of_cons, elem_of_nil.
    intros [->|[->|[]]]; split; try done; tauto. }
  assert (∀ k, k ∈ ["member_id"; "email"; "fields"] → k ≠ "fields" → k ∈ top) as H3top.
  { subst top. intros k. rewrite !elem_of_cons, elem_of_nil. tauto. }
  assert (raw !! "status" = None) as Hs.
  { apply Hout. rewrite !not_elem_of_cons. split_and!; [done|done|done|apply not_elem_of_nil]. }
  assert (raw !! "member_status_id" = None) as Hm.
  { apply Hout. rewrite !not_elem_of_cons. split_and!; [done|done|done|apply not_elem_of_nil]. }
  unfold parse_then_extract, init.
  destruct Hf as [Hf|(f & Hf & Hne & Hfk)].
  - rewrite _parse_raw_plain by done. simpl.
    rewrite extract_of_email by done. simpl. f_equal. fold top.
    apply map_eq. intros k. destruct (decide (k = "fields")) as [->|Hk].
    + rewrite wire_body_fields by done. rewrite Hf.
      destruct (dict_bool _) eqn:E; [|done].
      apply dict_bool_true in E. destruct E. apply map_empty. intros k.
      apply map_lookup_filter_None. right. intros v Hv [Hn _]. simpl in *.
      apply Hn, H3top; [apply Hkeys; by eexists|]. intros ->. congruence.
    + destruct (decide (k ∈ top)) as [Hin|Hin].
      * by apply wire_body_lookup_top.
      * rewrite wire_body_lookup_other by done. symmetry. apply Hout.
        intros Hk3. by apply Hin, H3top.
  - rewrite (_parse_raw_nested raw f) by done. simpl.
    set (flat := delete "fields" (f ∪ raw)).
    assert (∀ k, f !! k = None ∨ ((k ∉ top) ∧ k ≠ "fields" ∧ k ∈ export_shortcuts deps))
      as Hfk'.
    { intros k. destruct (f !! k) as [v|] eqn:Hv; [right|by left].
      destruct (Hfk k) as [Hsc Hn3]; [by eexists|].
      split_and!; [| |done].
      2:{ intros ->. apply Hn3.
          apply list_elem_of_further, list_elem_of_further, list_elem_of_here. }
      intros Hin. apply Hn3. by apply Htop3. }
    assert (∀ k, k ∈ top → flat !! k = raw !! k) as Hflat_top.
    { intros k Hin. subst flat. destruct (Htop3 k Hin) as [_ Hkf].
      rewrite lookup_delete_ne by done.
      destruct (Hfk' k) as [Hn|[Hn _]]; [|done]. by apply lookup_union_r. }
    assert (∀ k, k ∉ top → flat !! k = f !! k) as Hflat_other.
    { intros k Hin. subst flat. destruct (decide (k = "fields")) as [->|Hkf].
      - rewrite lookup_delete_eq. destruct (Hfk' "fields") as [?|(_ & ? & _)]; done.
      - rewrite lookup_delete_ne by done.
        destruct (f !! k) as [v|] eqn:Hv.
        + by apply lookup_union_Some_l.
        + apply lookup_union_None. split; [done|]. apply Hout.
          intros Hk3. by apply Hin, H3top. }
    rewrite extract_of_email.
    2:{ simpl. rewrite Hflat_top; [done|]. subst top.
        apply list_elem_of_further, list_elem_of_here. }
    simpl. f_equal. fold top.
    assert (filter (λ kv : string * value,
                      (kv.1 ∉ top) ∧ (kv.1 ∈ export_shortcuts deps)) flat = f) as HF.
    { apply map_eq. intros k. apply option_eq. intros v.
      rewrite map_lookup_filter_Some. simpl. split.
      - intros (Hv & Hn & _). by rewrite <- Hflat_other.
      - intros Hv. destruct (Hfk' k) as [?|(Hn & _ & Hsc)]; [congruence|].
        split_and!; [|done|done]. by rewrite Hflat_other. }
    apply map_eq. intros k. destruct (decide (k = "fields")) as [->|Hk].
    + rewrite wire_body_fields by done. rewrite HF.
      by rewrite (proj2 (dict_bool_true f) Hne).
    + destruct (decide (k ∈ top)) as [Hin|Hin].
      * rewrite wire_body_lookup_top by done. by apply Hflat_top.
      * rewrite wire_body_lookup_other by done. symmetry. apply Hout.
        intros Hk3. by apply Hin, H3top.
Qed.

(** ** [save]: what travels and how calls compose *)

(** X8: on the create path a member with cached groups is not created:
    [_add] asks the group collection, which refuses a member without
    [member_id], so [save] raises [NoMemberIdError] and issues no call. *)
Theorem save_new_member_with_cached_groups (s : state W) (sid e : value) :
  _dict (self s) !! "member_id" = None →
  _dict (self s) !! "email" = Some e →
  groups (self s) ≠ ∅ →
  save deps sid s = (Raise NoMemberIdError, s).
Proof.
  intros Hid He Hg. rewrite (save_without_id deps s sid Hid), (_add_run deps s sid Hid).
  rewrite extract_of_email by eauto.
  by rewrite (proj2 (dict_bool_true _) Hg).
Qed.

(** X9: the body [save] posts for a new member holds the member's email,
    no [member_id] and no [group_ids], and holds [signup_form_id] exactly
    when the argument is truthy. *)
Theorem create_body_contents (s : state W) (sid e : value) :
  _dict (self s) !! "member_id" = None →
  _dict (self s) !! "email" = Some e →
  groups (self s) = ∅ →
  ∃ body,
    calls (save deps sid s).2 = calls s ++ [adapter_post "/members/add" (VDict body)] ∧
    body !! "email" = Some e ∧
    body !! "member_id" = None ∧
    body !! "group_ids" = None ∧
    body !! "signup_form_id" = (if truthy sid then Some sid else None).
Proof.
  intros Hid He Hg. rewrite (save_without_id deps s sid Hid), (_add_run deps s sid Hid).
  rewrite extract_of_email by eauto.
  rewrite (proj2 (dict_bool_false _) Hg). simpl.
  set (top := ["member_id"; "email"]).
  set (wb := wire_body top (export_shortcuts deps) (_dict (self s))).
  assert (∀ k, k ∉ top → k ≠ "fields" → wb !! k = None) as Hother.
  { intros k ? ?. by apply wire_body_lookup_other. }
  assert (∀ k, k ≠ "member_id" → k ≠ "email" → k ∉ top) as Hnot.
  { intros k ? ?. subst top. rewrite !not_elem_of_cons.
    split_and!; [done|done|apply not_elem_of_nil]. }
  assert (wb !! "email" = Some e) as Hwe.
  { subst wb. rewrite wire_body_lookup_top; [done| |done].
    apply list_elem_of_further, list_elem_of_here. }
  assert (wb !! "member_id" = None) as Hwi.
  { subst wb. rewrite wire_body_lookup_top; [done| |done]. apply list_elem_of_here. }
  eexists. split; [walk_response|].
  destruct (truthy sid).
  - rewrite !lookup_insert_ne by done. rewrite lookup_insert_eq.
    split_and!; [done|done| |done]. apply Hother; [by apply Hnot|done].
  - split_and!; [done|done| |]; (apply Hother; [by apply Hnot|done]).
Qed.

(** X10: the body [save] puts for a known member holds the member's
    [member_id] and email; apart from these, ["fields"] and ["status_to"]
    it has no key, so the status itself travels under ["status_to"] only. *)
Theorem update_body_contents (s : state W) (sid mid e st : value) :
  _dict (self s) !! "member_id" = Some mid →
  _dict (self s) !! "email" = Some e →
  _dict (self s) !! "status" = Some st →
  ∃ body,
    calls (save deps sid s).2
      = calls s ++ [adapter_put ("/members/" +:+ format_s deps mid) (Some (VDict body))] ∧
    body !! "member_id" = Some mid ∧
    body !! "email" = Some e ∧
    (∀ k, is_Some (body !! k) → k ∈ ["member_id"; "email"; "fields"; "status_to"]).
Proof.
  intros Hid He Hst. rewrite (save_with_id deps s sid mid Hid), (_update_run deps s mid Hid).
  rewrite extract_of_email by eauto. rewrite Hst. simpl.
  set (top := ["member_id"; "email"]).
  set (wb := wire_body top (export_shortcuts deps) (_dict (self s))).
  assert (wb !! "email" = Some e) as Hwe.
  { subst wb. rewrite wire_body_lookup_top; [done| |done].
    apply list_elem_of_further, list_elem_of_here. }
  assert (wb !! "member_id" = Some mid) as Hwi.
  { subst wb. rewrite wire_body_lookup_top; [done| |done]. apply list_elem_of_here. }
  assert (∀ k, is_Some (wb !! k) → k ∈ ["member_id"; "email"; "fields"]) as Hdom.
  { intros k Hk. destruct (decide (k = "fields")) as [->|Hkf].
    { apply list_elem_of_further, list_elem_of_further, list_elem_of_here. }
    destruct (decide (k ∈ top)) as [Hin|Hin].
    - revert Hin. subst top. rewrite !elem_of_cons. tauto.
    - subst wb. rewrite wire_body_lookup_other in Hk by done. by destruct Hk. }
  eexists. split; [walk_response|].
  unfold with_status_to.
  destruct (existsb _ _); [destruct st|]; try (rewrite !lookup_insert_ne by done);
    (split_and!; [done|done|]); intros k Hk;
    try (apply Hdom in Hk; revert Hk; rewrite !elem_of_cons; tauto).
  destruct (decide (k = "status_to")) as [->|Hks].
  - rewrite !elem_of_cons. tauto.
  - rewrite lookup_insert_ne in Hk by done.
    apply Hdom in Hk. revert Hk. rewrite !elem_of_cons. tauto.
Qed.







(** ** [opt_out] with the readers *)

Lemma has_opted_out_run (s : state W) :
  has_opted_out s
  = (match _dict (self s) !! "status" with
     | Some st => Ok (is_status OptOut st)
     | None => Raise NoMemberStatusError
     end, s).
Proof.
  unfold has_opted_out, bind, get_self, raise, lift, ret.
  destruct (_dict (self s) !! "status") as [st|] eqn:E.
  - by rewrite (contains_Some _ _ _ E), (getitem_Some _ _ _ E).
  - by rewrite (contains_None _ _ E).
Qed.

(** X12: once [opt_out] has been answered with a truthy value,
    [has_opted_out] returns [True] and [get_opt_out_detail], for a member
    with a [member_id], goes to the server: the log holds the opt-out
    [put] followed by the [get] of the history.  After a falsy answer
    [has_opted_out] returns what it returned before. *)
Theorem opt_out_then_readers (s : state W) (e r : value) (w' : W) :
  _dict (self s) !! "email" = Some e →
  adapter deps (remote s)
    (adapter_put ("/members/email/optout/" +:+ format_s deps e) None) = (Ok r, w') →
  (truthy r = true →
     has_opted_out (opt_out deps s).2 = (Ok true, (opt_out deps s).2) ∧
     ∀ mid, _dict (self s) !! "member_id" = Some mid →
       calls (get_opt_out_detail deps (opt_out deps s).2).2
       = calls s ++ [adapter_put ("/members/email/optout/" +:+ format_s deps e) None;
                     adapter_get ("/members/" +:+ format_s deps mid +:+ "/optout")]) ∧
  (truthy r = false →
     (has_opted_out (opt_out deps s).2).1 = (has_opted_out s).1).
Proof.
  intros He Ha. rewrite (opt_out_email deps s e He). rewrite Ha. simpl. split.
  - intros ->. split.
    + rewrite has_opted_out_run. simpl. by rewrite lookup_insert_eq.
    + intros mid Hid.
      unfold get_opt_out_detail, bind, get_self, raise, lift, ret, call. simpl.
      rewrite (contains_Some _ "member_id" mid) by (by rewrite lookup_insert_ne).
      rewrite (getitem_Some _ "status" (VStatus OptOut)) by apply lookup_insert_eq.
      simpl.
      rewrite (getitem_Some _ "member_id" mid) by (by rewrite lookup_insert_ne).
      simpl. destruct (adapter deps w' _). simpl. by rewrite <- (assoc_L (++)).
  - intros ->. by rewrite !has_opted_out_run.
Qed.

(** ** The collections: preconditions, keys and failed fetches *)

(** X13: without a [member_id] both [fetch_all] raise [NoMemberIdError]
    before anything else: no call is issued and nothing changes, also when
    the cache is already populated. *)
Theorem fetch_all_requires_member_id (s : state W) :
  _dict (self s) !! "member_id" = None →
  MemberMailingCollection_fetch_all deps s = (Raise NoMemberIdError, s) ∧
  MemberGroupCollection_fetch_all deps s = (Raise NoMemberIdError, s).
Proof.
  intros Hid. split.
  - by apply mailings_fetch_all_without_id.
  - by apply groups_fetch_all_without_id.
Qed.


End MoreMemberFacts.

(** ** [dict(map(...))] *)

Section DictMapFacts.
Context (key : string) (entity : value → result value).

Lemma rbind_Ok_r {A} (r : result A) : rbind r Ok = r.
Proof. by destruct r. Qed.

Lemma reduce_snoc {A B} (f : A → B → result A) (l : list B) (x : B) (a : A) :
  reduce f (l ++ [x]) a = (let* b := reduce f l a in f b x)%res.
Proof.
  revert a. induction l as [|y l IH]; intros a; simpl.
  - apply rbind_Ok_r.
  - destruct (f a y) as [a'|?]; simpl; [apply IH|done].
Qed.

Lemma rmap_snoc {A B} (f : A → result B) (l : list A) (x : A) :
  rmap f (l ++ [x])
  = (let* ys := rmap f l in let* y := f x in Ok (ys ++ [y]))%res.
Proof.
  induction l as [|a l IH]; simpl.
  - by destruct (f x).
  - destruct (f a) as [b|?]; simpl; [|done]. rewrite IH.
    destruct (rmap f l) as [ys|?]; simpl; [|done]. by destruct (f x).
Qed.

Lemma keyed_inj (x : value) (k k' : hkey) (e e' : value) :
  keyed key entity x k e → keyed key entity x k' e' → k = k' ∧ e = e'.
Proof. intros (kv & H1 & H2 & H3) (kv' & H1' & H2' & H3'). split; congruence. Qed.

Lemma dict_map_snoc (xs : list value) (x : value) (d : gmap hkey value) :
  dict_map key entity (VList (xs ++ [x])) = Ok d ↔
  ∃ d0 k e, dict_map key entity (VList xs) = Ok d0 ∧
            keyed key entity x k e ∧ d = <[k := e]> d0.
Proof.
  unfold dict_map, py_dict. simpl. rewrite rmap_snoc.
  destruct (rmap _ xs) as [pairs|?]; simpl.
  2:{ split; [done|]. by intros (? & ? & ? & ? & _). }
  unfold keyed.
  destruct (subscript x key) as [kv|?]; simpl.
  2:{ split; [done|]. by intros (? & ? & ? & _ & (? & ? & _) & _). }
  destruct (entity x) as [e|?]; simpl.
  2:{ split; [done|]. by intros (? & ? & ? & _ & (? & _ & _ & ?) & _). }
  rewrite reduce_snoc. destruct (reduce _ pairs ∅) as [d0|?]; simpl.
  2:{ split; [done|]. by intros (? & ? & ? & ? & _). }
  destruct (hash_key kv) as [k|?] eqn:Hk; simpl.
  - split.
    + intros [= <-]. exists d0, k, e. split; [done|]. split; [|done]. by exists kv.
    + intros (d0' & k' & e' & [= <-] & (kv' & [= <-] & Hk' & [= <-]) & ->).
      congruence.
  - split; [done|].
    intros (? & ? & ? & _ & (kv' & [= <-] & ? & _) & _). congruence.
Qed.

Lemma dict_map_cache_of (xs : list value) :
  ∀ d, dict_map key entity (VList xs) = Ok d → cache_of key entity xs d.
Proof.
  induction xs as [|z xs IH] using rev_ind; intros d.
  - intros [= <-]. split_and!.
    + intros k e. by rewrite lookup_empty.
    + intros x Hx. by apply elem_of_nil in Hx.
    + intros xs1 x xs2 k e Hxs. by destruct xs1.
  - intros (d0 & kz & ez & Hd0 & Hz & ->)%dict_map_snoc.
    destruct (IH d0 Hd0) as (I1 & I2 & I3). split_and!.
    + intros k e. destruct (decide (kz = k)) as [->|Hne].
      * rewrite lookup_insert_eq. intros [= <-]. exists z. split; [|done].
        apply elem_of_app. right. apply list_elem_of_here.
      * rewrite lookup_insert_ne by done. intros (x & Hx & Hk)%I1.
        exists x. split; [|done]. apply elem_of_app. by left.
    + intros x [Hx|Hx%list_elem_of_singleton]%elem_of_app.
      * destruct (I2 x Hx) as (k & e & Hk & Hs). exists k, e. split; [done|].
        destruct (decide (kz = k)) as [->|Hne].
        -- rewrite lookup_insert_eq. by eexists.
        -- by rewrite lookup_insert_ne.
      * subst x. exists kz, ez. split; [done|]. rewrite lookup_insert_eq. by eexists.
    + intros xs1 x xs2 k e Hxs Hk Hlater.
      destruct xs2 as [|y xs2 _] using rev_ind.
      * apply app_inj_tail in Hxs as [Hl Hzx]. subst xs1 x.
        destruct (keyed_inj z kz k ez e Hz Hk) as [-> ->]. apply lookup_insert_eq.
      * change (xs1 ++ x :: xs2 ++ [y]) with (xs1 ++ (x :: xs2) ++ [y]) in Hxs.
        rewrite (assoc_L (++)) in Hxs. apply app_inj_tail in Hxs as [Hl Hzy].
        subst xs y. rewrite lookup_insert_ne.
        -- apply (I3 xs1 x xs2); [done|done|].
           intros y' e' Hy'. apply Hlater. apply elem_of_app. by left.
        -- intros ->. apply (Hlater z ez); [|done].
           apply elem_of_app. right. apply list_elem_of_here.
Qed.

Lemma dict_map_succeeds (xs : list value) :
  (∀ x, x ∈ xs → ∃ k e, keyed key entity x k e) →
  ∃ d, dict_map key entity (VList xs) = Ok d.
Proof.
  induction xs as [|z xs IH] using rev_ind; intros Hall.
  - by eexists.
  - destruct IH as [d0 Hd0].
    { intros x Hx. apply Hall. apply elem_of_app. by left. }
    destruct (Hall z) as (k & e & Hk).
    { apply elem_of_app. right. apply list_elem_of_here. }
    exists (<[k := e]> d0). apply dict_map_snoc. by exists d0, k, e.
Qed.

End DictMapFacts.

Section CollectionFacts.
Import Member.
Context {W : Type}.
Variable deps : Deps W.

(** X14: when the [get] of the groups of a member with a [member_id] and
    an empty cache is answered with a list, [fetch_all] succeeds as soon as
    every element has a hashable [group_name] and a [Group] can be made of
    it; and whenever it succeeds, the mapping it returns is the new cache,
    keyed by [group_name]: each entry comes from an element of the answer,
    each element has an entry, and of elements with the same name the last
    one is kept.  So for the mailings, keyed by [mailing_id]. *)
Theorem fetch_all_keys_cache (s : state W) (mid : value) (xs : list value) (w' : W) :
  _dict (self s) !! "member_id" = Some mid →
  (groups (self s) = ∅ →
   adapter deps (remote s)
     (adapter_get ("/members/" +:+ format_s deps mid +:+ "/groups")) = (Ok (VList xs), w') →
   ((∀ x, x ∈ xs → ∃ k e, keyed "group_name" (Group deps) x k e) →
    ∃ d, (MemberGroupCollection_fetch_all deps s).1 = Ok d) ∧
   (∀ d, (MemberGroupCollection_fetch_all deps s).1 = Ok d →
         groups (self (MemberGroupCollection_fetch_all deps s).2) = d ∧
         cache_of "group_name" (Group deps) xs d)) ∧
  (mailings (self s) = ∅ →
   adapter deps (remote s)
     (adapter_get ("/members/" +:+ format_s deps mid +:+ "/mailings")) = (Ok (VList xs), w') →
   ((∀ x, x ∈ xs → ∃ k e, keyed "mailing_id" (Mailing deps) x k e) →
    ∃ d, (MemberMailingCollection_fetch_all deps s).1 = Ok d) ∧
   (∀ d, (MemberMailingCollection_fetch_all deps s).1 = Ok d →
         mailings (self (MemberMailingCollection_fetch_all deps s).2) = d ∧
         cache_of "mailing_id" (Mailing deps) xs d)).
Proof.
  intros Hid. split.
  - intros Hg Ha. rewrite (groups_fetch_all_run deps s mid Hid).
    rewrite (proj2 (dict_bool_false _) Hg). simpl. rewrite Ha. simpl. split.
    + intros Hall. destruct (dict_map_succeeds "group_name" (Group deps) xs Hall) as [d ->].
      by exists d.
    + intros d. destruct (dict_map _ _ _) as [d'|?] eqn:Hd; simpl; [|done].
      intros [= ->]. split; [done|]. by apply dict_map_cache_of.
  - intros Hg Ha. rewrite (mailings_fetch_all_run deps s mid Hid).
    rewrite (proj2 (dict_bool_false _) Hg). simpl. rewrite Ha. simpl. split.
    + intros Hall. destruct (dict_map_succeeds "mailing_id" (Mailing deps) xs Hall) as [d ->].
      by exists d.
    + intros d. destruct (dict_map _ _ _) as [d'|?] eqn:Hd; simpl; [|done].
      intros [= ->]. split; [done|]. by apply dict_map_cache_of.
Qed.

(** X15: for a member with a [member_id], a [fetch_all] that raises has
    issued exactly its one [get] and has left the member and both caches
    as they were; this is what happens when, the cache being empty, the
    adapter answers [None]: the call raises [TypeError]. *)
Theorem failed_fetch_leaves_cache (s : state W) (mid : value) :
  _dict (self s) !! "member_id" = Some mid →
  (∀ e, (MemberGroupCollection_fetch_all deps s).1 = Raise e →
        self (MemberGroupCollection_fetch_all deps s).2 = self s ∧
        calls (MemberGroupCollection_fetch_all deps s).2
        = calls s ++ [adapter_get ("/members/" +:+ format_s deps mid +:+ "/groups")]) ∧
  (∀ w', groups (self s) = ∅ →
         adapter deps (remote s)
           (adapter_get ("/members/" +:+ format_s deps mid +:+ "/groups")) = (Ok VNone, w') →
         (MemberGroupCollection_fetch_all deps s).1 = Raise TypeError) ∧
  (∀ e, (MemberMailingCollection_fetch_all deps s).1 = Raise e →
        self (MemberMailingCollection_fetch_all deps s).2 = self s ∧
        calls (MemberMailingCollection_fetch_all deps s).2
        = calls s ++ [adapter_get ("/members/" +:+ format_s deps mid +:+ "/mailings")]) ∧
  (∀ w', mailings (self s) = ∅ →
         adapter deps (remote s)
           (adapter_get ("/members/" +:+ format_s deps mid +:+ "/mailings")) = (Ok VNone, w') →
         (MemberMailingCollection_fetch_all deps s).1 = Raise TypeError).
Proof.
  intros Hid. split_and!.
  - intros e. rewrite (groups_fetch_all_run deps s mid Hid).
    destruct (dict_bool (groups (self s))); [done|]. simpl.
    by destruct (let* r := _ in _)%res.
  - intros w' Hg Ha. rewrite (groups_fetch_all_run deps s mid Hid).
    rewrite (proj2 (dict_bool_false _) Hg). simpl. by rewrite Ha.
  - intros e. rewrite (mailings_fetch_all_run deps s mid Hid).
    destruct (dict_bool (mailings (self s))); [done|]. simpl.
    by destruct (let* r := _ in _)%res.
  - intros w' Hg Ha. rewrite (mailings_fetch_all_run deps s mid Hid).
    rewrite (proj2 (dict_bool_false _) Hg). simpl. by rewrite Ha.
Qed.

End CollectionFacts.

(** * The member model over the Requests adapter *)

Section WiredFacts.
Import Member.
Context {W : Type}.
Variable requests : W → RequestsAdapter.http_call → response * W.
Variable json_dumps : value → string.
Variable acct : RequestsAdapter.t.
Variable deps : Deps W.
Hypothesis Hwired : Wired.wired requests json_dumps acct deps.

Lemma wired_put (w : W) (path : string) (params : option value) :
  adapter deps w (adapter_put path params)
  = (RequestsAdapter._process_response
       (requests w (RequestsAdapter.requests_put
                      (RequestsAdapter.url acct +:+ path)
                      (default (VDict ∅) params) (RequestsAdapter.auth acct))).1,
     (requests w (RequestsAdapter.requests_put
                    (RequestsAdapter.url acct +:+ path)
                    (default (VDict ∅) params) (RequestsAdapter.auth acct))).2).
Proof.
  rewrite Hwired. unfold Wired.requests_adapter, RequestsAdapter.put.
  by destruct (requests w _).
Qed.

Lemma wired_get (w : W) (path : string) :
  adapter deps w (adapter_get path)
  = (RequestsAdapter._process_response
       (requests w (RequestsAdapter.requests_get
                      (RequestsAdapter.url acct +:+ path)
                      (VDict ∅) (RequestsAdapter.auth acct))).1,
     (requests w (RequestsAdapter.requests_get
                    (RequestsAdapter.url acct +:+ path)
                    (VDict ∅) (RequestsAdapter.auth acct))).2).
Proof.
  rewrite Hwired. unfold Wired.requests_adapter, RequestsAdapter.get.
  by destruct (requests w _).
Qed.

Lemma wired_post (w : W) (path : string) (data : value) :
  adapter deps w (adapter_post path data)
  = (RequestsAdapter._process_response
       (requests w (RequestsAdapter.requests_post
                      (RequestsAdapter.url acct +:+ path)
                      (json_dumps data) (RequestsAdapter.auth acct))).1,
     (requests w (RequestsAdapter.requests_post
                    (RequestsAdapter.url acct +:+ path)
                    (json_dumps data) (RequestsAdapter.auth acct))).2).
Proof.
  rewrite Hwired. unfold Wired.requests_adapter, RequestsAdapter.post.
  by destruct (requests w _).
Qed.

(** X16: over the Requests adapter, [save] on a member with a [member_id],
    an email and a status hands its body to [requests.put] as [params] of
    the member's URL, and leaves the member as it was; it raises
    [MemberUpdateError] on a 404, [ApiRequestFailed] with the response on
    any other status above 200, and on a status of 200 or lower it succeeds
    exactly when the decoded body is truthy. *)
Theorem update_over_requests (s : state W) (sid mid e st : value) :
  _dict (self s) !! "member_id" = Some mid →
  _dict (self s) !! "email" = Some e →
  _dict (self s) !! "status" = Some st →
  let body := with_status_to deps st
                (wire_body ["member_id"; "email"] (export_shortcuts deps)
                           (_dict (self s))) in
  let resp := (requests (remote s)
                 (RequestsAdapter.requests_put
                    (RequestsAdapter.url acct +:+ "/members/" +:+ format_s deps mid)
                    (VDict body) (RequestsAdapter.auth acct))).1 in
  self (save deps sid s).2 = self s ∧
  (status_code resp = 404 → (save deps sid s).1 = Raise MemberUpdateError) ∧
  (status_code resp ≠ 404 → 200 < status_code resp →
   (save deps sid s).1 = Raise (ApiRequestFailed resp)) ∧
  (status_code resp ≤ 200 →
   (save deps sid s).1
   = if truthy (json resp) then Ok () else Raise MemberUpdateError).
Proof.
  intros Hid He Hst body resp.
  rewrite (save_with_id deps s sid mid Hid).
  split; [by apply (_update_keeps_self deps s mid)|].
  rewrite (_update_run deps s mid Hid).
  rewrite extract_of_email by eauto. rewrite Hst. simpl.
  rewrite wired_put. simpl. fold body. fold resp.
  destruct (process_response_by_status resp) as (H404 & Hfail & Hok).
  split_and!.
  - intros H. by rewrite (H404 H).
  - intros H1 H2. by rewrite (Hfail H1 H2).
  - intros H. rewrite (Hok H). by destruct (truthy (json resp)).
Qed.

(** X17: over the Requests adapter, [opt_out] on a member with an email
    returns normally on a 404 without touching the member, so an unknown
    address goes unnoticed; it raises [ApiRequestFailed] with the response
    on any other status above 200, the member untouched; and on a status of
    200 or lower it returns normally, the status becoming [OptOut] exactly
    when the decoded body is truthy. *)
Theorem opt_out_over_requests (s : state W) (e : value) :
  _dict (self s) !! "email" = Some e →
  let resp := (requests (remote s)
                 (RequestsAdapter.requests_put
                    (RequestsAdapter.url acct +:+ "/members/email/optout/"
                     +:+ format_s deps e)
                    (VDict ∅) (RequestsAdapter.auth acct))).1 in
  (status_code resp = 404 →
   (opt_out deps s).1 = Ok () ∧ self (opt_out deps s).2 = self s) ∧
  (status_code resp ≠ 404 → 200 < status_code resp →
   (opt_out deps s).1 = Raise (ApiRequestFailed resp) ∧
   self (opt_out deps s).2 = self s) ∧
  (status_code resp ≤ 200 →
   (opt_out deps s).1 = Ok () ∧
   self (opt_out deps s).2
   = if truthy (json resp)
     then {| _dict := <["status" := VStatus OptOut]> (_dict (self s));
             groups := groups (self s); mailings := mailings (self s) |}
     else self s).
Proof.
  intros He resp. rewrite (opt_out_email deps s e He).
  rewrite wired_put. simpl. fold resp.
  destruct (process_response_by_status resp) as (H404 & Hfail & Hok).
  split_and!.
  - intros H. by rewrite (H404 H).
  - intros H1 H2. by rewrite (Hfail H1 H2).
  - intros H. rewrite (Hok H). by destruct (truthy (json resp)).
Qed.

(** X18: over the Requests adapter, [fetch_all] of the groups of a member
    with a [member_id] and an empty cache raises [TypeError] on a 404 (the
    [None] of the adapter cannot be iterated) and [ApiRequestFailed] with
    the response on any other status above 200; either way the cache stays
    empty.  So for the mailings. *)
Theorem fetch_all_over_requests (s : state W) (mid : value) :
  _dict (self s) !! "member_id" = Some mid →
  (groups (self s) = ∅ →
   let resp := (requests (remote s)
                  (RequestsAdapter.requests_get
                     (RequestsAdapter.url acct +:+ "/members/" +:+ format_s deps mid
                      +:+ "/groups")
                     (VDict ∅) (RequestsAdapter.auth acct))).1 in
   (status_code resp = 404 →
    (MemberGroupCollection_fetch_all deps s).1 = Raise TypeError ∧
    groups (self (MemberGroupCollection_fetch_all deps s).2) = ∅) ∧
   (status_code resp ≠ 404 → 200 < status_code resp →
    (MemberGroupCollection_fetch_all deps s).1 = Raise (ApiRequestFailed resp) ∧
    groups (self (MemberGroupCollection_fetch_all deps s).2) = ∅)) ∧
  (mailings (self s) = ∅ →
   let resp := (requests (remote s)
                  (RequestsAdapter.requests_get
                     (RequestsAdapter.url acct +:+ "/members/" +:+ format_s deps mid
                      +:+ "/mailings")
                     (VDict ∅) (RequestsAdapter.auth acct))).1 in
   (status_code resp = 404 →
    (MemberMailingCollection_fetch_all deps s).1 = Raise TypeError ∧
    mailings (self (MemberMailingCollection_fetch_all deps s).2) = ∅) ∧
   (status_code resp ≠ 404 → 200 < status_code resp →
    (MemberMailingCollection_fetch_all deps s).1 = Raise (ApiRequestFailed resp) ∧
    mailings (self (MemberMailingCollection_fetch_all deps s).2) = ∅)).
Proof.
  intros Hid. split.
  - intros Hg resp. rewrite (groups_fetch_all_run deps s mid Hid).
    rewrite (proj2 (dict_bool_false _) Hg). simpl.
    rewrite wired_get. simpl. fold resp.
    destruct (process_response_by_status resp) as (H404 & Hfail & _). split.
    + intros H. by rewrite (H404 H).
    + intros H1 H2. by rewrite (Hfail H1 H2).
  - intros Hg resp. rewrite (mailings_fetch_all_run deps s mid Hid).
    rewrite (proj2 (dict_bool_false _) Hg). simpl.
    rewrite wired_get. simpl. fold resp.
    destruct (process_response_by_status resp) as (H404 & Hfail & _). split.
    + intros H. by rewrite (H404 H).
    + intros H1 H2. by rewrite (Hfail H1 H2).
Qed.

(** X19: over the Requests adapter, [save] on a new member with an email
    and no cached groups hands the serialised body to [requests.post] for
    the add URL; on a 404 it raises [TypeError] (the [None] of the adapter
    has no ['status']) and on any other status above 200
    [ApiRequestFailed] with the response, and either way the member is as
    it was: no status and no [member_id] have been assigned. *)
Theorem create_over_requests (s : state W) (sid e : value) :
  _dict (self s) !! "member_id" = None →
  _dict (self s) !! "email" = Some e →
  groups (self s) = ∅ →
  let wb := wire_body ["member_id"; "email"] (export_shortcuts deps) (_dict (self s)) in
  let body := if truthy sid then <["signup_form_id" := sid]> wb else wb in
  let resp := (requests (remote s)
                 (RequestsAdapter.requests_post
                    (RequestsAdapter.url acct +:+ "/members/add")
                    (json_dumps (VDict body)) (RequestsAdapter.auth acct))).1 in
  (status_code resp = 404 →
   (save deps sid s).1 = Raise TypeError ∧ self (save deps sid s).2 = self s) ∧
  (status_code resp ≠ 404 → 200 < status_code resp →
   (save deps sid s).1 = Raise (ApiRequestFailed resp) ∧
   self (save deps sid s).2 = self s).
Proof.
  intros Hid He Hg wb body resp.
  rewrite (save_without_id deps s sid Hid), (_add_run deps s sid Hid).
  rewrite extract_of_email by eauto.
  rewrite (proj2 (dict_bool_false _) Hg). simpl.
  rewrite wired_post. simpl. fold wb. fold body. fold resp.
  destruct (process_response_by_status resp) as (H404 & Hfail & _). split.
  - intros H. by rewrite (H404 H).
  - intros H1 H2. by rewrite (Hfail H1 H2).
Qed.

End WiredFacts.

(** * Properties of the import model *)

Section ImportFacts.
Context {V : Type}.
Variable ImportStatus_factory : V → result V.
Variable ImportStyle_factory : V → result V.
Variable _str_fields_to_datetime : list string → gmap string V → result (gmap string V).

(** X20: when the date helper always answers and changes nothing but the
    fields it is asked to convert, and the status and style codes of a raw
    dict (where present) resolve, [_parse_raw] succeeds; the parsed import
    holds the resolved status and style where the raw dict had codes and no
    such key where it had none, and agrees with the raw dict on every key
    other than these two and the two date fields. *)
Theorem import_parse_raw_resolves (raw : gmap string V) :
  (∀ fields d, ∃ d', _str_fields_to_datetime fields d = Ok d') →
  (∀ fields d d', _str_fields_to_datetime fields d = Ok d' →
                  ∀ k, k ∉ fields → d' !! k = d !! k) →
  (∀ c, raw !! "status" = Some c → ∃ x, ImportStatus_factory c = Ok x) →
  (∀ c, raw !! "style" = Some c → ∃ x, ImportStyle_factory c = Ok x) →
  ∃ d,
    EmmaImport._parse_raw ImportStatus_factory ImportStyle_factory
      _str_fields_to_datetime raw = Ok d ∧
    (∀ c x, raw !! "status" = Some c → ImportStatus_factory c = Ok x →
            d !! "status" = Some x) ∧
    (raw !! "status" = None → d !! "status" = None) ∧
    (∀ c x, raw !! "style" = Some c → ImportStyle_factory c = Ok x →
            d !! "style" = Some x) ∧
    (raw !! "style" = None → d !! "style" = None) ∧
    (∀ k, k ∉ ["status"; "style"; "import_started"; "import_finished"] →
          d !! k = raw !! k).
Proof.
  intros Htotal Hlocal Hst Hsy. unfold EmmaImport._parse_raw.
  assert ("status" ∉ ["import_started"; "import_finished"]) as Hn1.
  { rewrite !not_elem_of_cons. split_and!; [done|done|apply not_elem_of_nil]. }
  assert ("style" ∉ ["import_started"; "import_finished"]) as Hn2.
  { rewrite !not_elem_of_cons. split_and!; [done|done|apply not_elem_of_nil]. }
  set (r1 := match raw !! "status" with Some c => _ | None => _ end).
  assert (∃ d1, r1 = Ok d1 ∧
                (∀ c x, raw !! "status" = Some c → ImportStatus_factory c = Ok x →
                        d1 !! "status" = Some x) ∧
                (raw !! "status" = None → d1 !! "status" = None) ∧
                (∀ k, k ≠ "status" → d1 !! k = raw !! k))
    as (d1 & -> & S1 & S2 & S3).
  { subst r1. destruct (raw !! "status") as [c|] eqn:Hc.
    - destruct (Hst c eq_refl) as [x Hx]. rewrite Hx. simpl.
      eexists. split; [done|]. split_and!.
      + intros c' x' [= <-] Hx'. rewrite lookup_insert_eq. congruence.
      + done.
      + intros k Hk. by rewrite lookup_insert_ne.
    - eexists. split; [done|]. split_and!; [done|done|done]. }
  simpl. set (r2 := match d1 !! "style" with Some c => _ | None => _ end).
  assert (∃ d2, r2 = Ok d2 ∧
                (∀ c x, raw !! "style" = Some c → ImportStyle_factory c = Ok x →
                        d2 !! "style" = Some x) ∧
                (raw !! "style" = None → d2 !! "style" = None) ∧
                (∀ k, k ≠ "style" → d2 !! k = d1 !! k))
    as (d2 & -> & T1 & T2 & T3).
  { subst r2. rewrite (S3 "style") by done.
    destruct (raw !! "style") as [c|] eqn:Hc.
    - destruct (Hsy c eq_refl) as [x Hx]. rewrite Hx. simpl.
      eexists. split; [done|]. split_and!.
      + intros c' x' [= <-] Hx'. rewrite lookup_insert_eq. congruence.
      + done.
      + intros k Hk. by rewrite lookup_insert_ne.
    - eexists. split; [done|]. split_and!; [done| |done].
      intros _. by rewrite (S3 "style"). }
  simpl. destruct (Htotal ["import_started"; "import_finished"] d2) as [d Hd].
  exists d. split; [done|].
  pose proof (Hlocal _ _ _ Hd) as Hk. split_and!.
  - intros c x Hc Hx. rewrite Hk by done. rewrite T3 by done. by apply (S1 c).
  - intros Hc. rewrite Hk by done. rewrite T3 by done. by apply S2.
  - intros c x Hc Hx. rewrite Hk by done. by apply (T1 c).
  - intros Hc. rewrite Hk by done. by apply T2.
  - intros k Hn. revert Hn. rewrite !not_elem_of_cons. intros (? & ? & ? & ? & _).
    rewrite Hk.
    2:{ rewrite !not_elem_of_cons. split_and!; [done|done|apply not_elem_of_nil]. }
    rewrite T3 by done. by apply S3.
Qed.

End ImportFacts.

(** * More scenarios *)

Section MoreScenarios.
Import Member Fixture.

Lemma has_opted_out_cases_witness :
  let m st := member (<["status" := VStatus st]> ∅) in
  has_opted_out (start (member ∅) []) = (Raise NoMemberStatusError, start (member ∅) []) ∧
  has_opted_out (start (m OptOut) []) = (Ok true, start (m OptOut) []) ∧
  has_opted_out (start (m Active) []) = (Ok false, start (m Active) []).
Proof.
  intros m. split_and!.
  - apply (proj1 (has_opted_out_cases (start (member ∅) []))). reflexivity.
  - apply (proj1 (proj2 (has_opted_out_cases (start (m OptOut) [])))). reflexivity.
  - apply (proj2 (proj2 (has_opted_out_cases (start (m Active) []))) (VStatus Active));
      [reflexivity|discriminate].
Defined.

Lemma parse_raw_flattens_fields_witness :
  let f : gmap string value :=
    <["first_name" := VStr "X"]> (<["email" := VStr "x@y.com"]> ∅) in
  let raw : gmap string value :=
    <["email" := VStr "a@b.com"]> (<["status" := VStr "a"]> (<["fields" := VDict f]> ∅)) in
  ∃ d, _parse_raw (deps []) raw = Ok d ∧
       d !! "fields" = None ∧
       d !! "first_name" = Some (VStr "X") ∧
       d !! "email" = Some (VStr "x@y.com").
Proof.
  intros f raw.
  destruct (proj2 (parse_raw_flattens_fields (deps []) raw) f eq_refl) as (d & Hd & Hall).
  { intros c [= <-]. by exists Active. }
  exists d. split; [exact Hd|]. split_and!.
  - exact (proj1 (parse_raw_flattens_fields (deps []) raw) d Hd).
  - apply Hall; [discriminate|reflexivity].
  - apply Hall; [discriminate|reflexivity].
Defined.

Lemma parse_raw_resolves_status_witness :
  let raw : gmap string value :=
    <["email" := VStr "a@b.com"]> (<["status" := VStr "o"]>
      (<["member_status_id" := VInt 7]> ∅)) in
  ∃ d, _parse_raw (deps []) raw = Ok d ∧
       d !! "status" = Some (VStatus OptOut) ∧
       d !! "member_status_id" = None ∧
       d !! "email" = Some (VStr "a@b.com").
Proof.
  intros raw.
  destruct (parse_raw_resolves_status (deps []) raw (VStr "o") OptOut eq_refl eq_refl)
    as (d & Hd & Hs & Hm & Hk).
  { by left. }
  exists d. split_and!; [exact Hd|exact Hs|exact Hm|].
  rewrite Hk; [reflexivity|discriminate|discriminate|discriminate|].
  intros f. discriminate.
Defined.

Lemma parse_raw_failures_witness :
  _parse_raw (deps []) (<["status" := VStr "zz"]> ∅) = Raise (KeyError "zz") ∧
  _parse_raw (deps []) (<["status" := VStr "a"]> (<["fields" := VNone]> ∅))
    = Raise TypeError.
Proof.
  split.
  - apply (proj1 (parse_raw_failures (deps []) (<["status" := VStr "zz"]> ∅))
             (VStr "zz")); reflexivity.
  - apply (proj2 (parse_raw_failures (deps [])
                    (<["status" := VStr "a"]> (<["fields" := VNone]> ∅))) VNone).
    + reflexivity.
    + by left.
    + intros c [= <-]. by exists Active.
Defined.

(** Solves [is_Some (d !! k) → P k] for a dict [d] written with inserts,
    one key after the other. *)
Ltac by_keys tac :=
  let v := fresh "v" in
  let Hv := fresh "Hv" in
  intros [v Hv];
  repeat (apply lookup_insert_Some in Hv as [[<- _]|[_ Hv]]; [tac|]);
  try (by rewrite lookup_empty in Hv).

Lemma extract_partitions_fields_witness :
  let d : gmap string value :=
    <["member_id" := VInt 123]> (<["email" := VStr "a@b.com"]>
      (<["first_name" := VStr "X"]> (<["notes" := VStr "private"]> ∅))) in
  ∃ body,
    extract_of (deps ["first_name"]) (Some ["email"]) (member d) = Ok body ∧
    body !! "email" = Some (VStr "a@b.com") ∧
    body !! "member_id" = None ∧
    body !! "notes" = None ∧
    ∃ f, body !! "fields" = Some (VDict f) ∧
         f !! "first_name" = Some (VStr "X") ∧
         f !! "notes" = None ∧ f !! "member_id" = None.
Proof.
  intros d.
  destruct (extract_partitions_fields (deps ["first_name"]) ["email"] (member d))
    as (body & Hb & Htop & Hother & _ & Hfields).
  { rewrite not_elem_of_cons. split; [done|apply not_elem_of_nil]. }
  { by eexists. }
  exists body. split; [exact Hb|].
  assert (∀ k, k ≠ "email" → k ∉ ["email"]) as Hne.
  { intros k ?. rewrite not_elem_of_cons. split; [done|apply not_elem_of_nil]. }
  split_and!.
  - rewrite Htop; [reflexivity|apply list_elem_of_here].
  - apply Hother; [by apply Hne|done].
  - apply Hother; [by apply Hne|done].
  - destruct (Hfields "first_name" (VStr "X")) as (f & Hf & Hiff).
    + reflexivity.
    + by apply Hne.
    + apply list_elem_of_here.
    + exists f. split; [exact Hf|]. split_and!.
      * apply Hiff. split_and!; [reflexivity|by apply Hne|apply list_elem_of_here].
      * apply eq_None_not_Some. intros [v Hv]. apply Hiff in Hv as (_ & _ & Hs).
        simpl in Hs. apply list_elem_of_singleton in Hs. discriminate.
      * apply eq_None_not_Some. intros [v Hv]. apply Hiff in Hv as (_ & _ & Hs).
        simpl in Hs. apply list_elem_of_singleton in Hs. discriminate.
Defined.

Lemma extract_then_parse_round_trip_witness :
  let d : gmap string value :=
    <["member_id" := VInt 123]> (<["email" := VStr "a@b.com"]>
      (<["first_name" := VStr "X"]> ∅)) in
  ∃ body, extract_of (deps ["first_name"]) None (member d) = Ok body ∧
          _parse_raw (deps ["first_name"]) body = Ok d.
Proof.
  intros d.
  apply (extract_then_parse_round_trip (deps ["first_name"]) (member d)).
  - by eexists.
  - reflexivity.
  - intros k. subst d. simpl. by_keys ltac:(simpl; rewrite !elem_of_cons; tauto).
Defined.

Lemma parse_then_extract_round_trip_witness :
  parse_then_extract (deps ["first_name"]) scenario_body = Ok scenario_body.
Proof.
  apply (parse_then_extract_round_trip (deps ["first_name"]) scenario_body).
  - by eexists.
  - intros k. unfold scenario_body. by_keys ltac:(rewrite !elem_of_cons; tauto).
  - right. exists (<["first_name" := VStr "X"]> ∅). split_and!.
    + reflexivity.
    + apply insert_non_empty.
    + intros k. by_keys ltac:(split; [apply list_elem_of_here|];
                              rewrite !not_elem_of_cons;
                              split_and!; [done|done|done|apply not_elem_of_nil]).
Defined.


Lemma save_new_member_with_cached_groups_witness :
  let m := {| _dict := <["email" := VStr "new@example.com"]> ∅;
              groups := <[KStr "VIP" := VDict ∅]> ∅; mailings := ∅ |} in
  save (deps []) VNone (start m [Ok (VBool true)])
  = (Raise NoMemberIdError, start m [Ok (VBool true)]).
Proof.
  intros m.
  apply (save_new_member_with_cached_groups (deps []) (start m [Ok (VBool true)])
           VNone (VStr "new@example.com")).
  - reflexivity.
  - reflexivity.
  - apply insert_non_empty.
Defined.

Lemma create_body_contents_witness :
  let s := start (member (<["email" := VStr "new@example.com"]> ∅)) [] in
  ∃ body,
    calls (save (deps []) (VInt 7) s).2 = [adapter_post "/members/add" (VDict body)] ∧
    body !! "email" = Some (VStr "new@example.com") ∧
    body !! "member_id" = None ∧
    body !! "group_ids" = None ∧
    body !! "signup_form_id" = Some (VInt 7).
Proof.
  intros s.
  apply (create_body_contents (deps []) s (VInt 7) (VStr "new@example.com"));
    reflexivity.
Defined.

Lemma update_body_contents_witness :
  let d : gmap string value :=
    <["member_id" := VInt 55]> (<["email" := VStr "a@b.com"]>
      (<["status" := VStatus Active]> ∅)) in
  ∃ body,
    calls (save (deps []) VNone (start (member d) [])).2
      = [adapter_put "/members/55" (Some (VDict body))] ∧
    body !! "member_id" = Some (VInt 55) ∧
    body !! "email" = Some (VStr "a@b.com") ∧
    (∀ k, is_Some (body !! k) → k ∈ ["member_id"; "email"; "fields"; "status_to"]).
Proof.
  intros d.
  apply (update_body_contents (deps []) (start (member d) []) VNone
           (VInt 55) (VStr "a@b.com") (VStatus Active)); reflexivity.
Defined.


Lemma opt_out_then_readers_witness :
  let d : gmap string value :=
    <["member_id" := VInt 123]> (<["email" := VStr "a@b.com"]>
      (<["status" := VStatus Active]> ∅)) in
  let s := start (member d) [Ok (VBool true); Ok (VList [])] in
  has_opted_out (opt_out (deps []) s).2 = (Ok true, (opt_out (deps []) s).2) ∧
  calls (get_opt_out_detail (deps []) (opt_out (deps []) s).2).2
  = [adapter_put "/members/email/optout/a@b.com" None;
     adapter_get "/members/123/optout"].
Proof.
  intros d s.
  destruct (proj1 (opt_out_then_readers (deps []) s (VStr "a@b.com") (VBool true)
                     [Ok (VList [])] eq_refl eq_refl) eq_refl) as [Hh Hg].
  split; [exact Hh|]. apply (Hg (VInt 123)). reflexivity.
Defined.

Lemma fetch_all_requires_member_id_witness :
  let m := {| _dict := <["email" := VStr "a@b.com"]> ∅;
              groups := <[KStr "VIP" := VDict ∅]> ∅; mailings := ∅ |} in
  MemberMailingCollection_fetch_all (deps []) (start m [Ok (VList [])])
    = (Raise NoMemberIdError, start m [Ok (VList [])]) ∧
  MemberGroupCollection_fetch_all (deps []) (start m [Ok (VList [])])
    = (Raise NoMemberIdError, start m [Ok (VList [])]).
Proof.
  intros m.
  apply (fetch_all_requires_member_id (deps []) (start m [Ok (VList [])])).
  reflexivity.
Defined.

(** Two groups of the same name and a third one: the later of the two is
    the one cached. *)
Lemma fetch_all_keys_cache_witness :
  let g name id : value :=
    VDict (<["group_name" := VStr name]> (<["group_id" := VInt id]> ∅)) in
  let xs := [g "VIP" 1; g "VIP" 2; g "Staff" 3] in
  let s := start (member (<["member_id" := VInt 5]> ∅)) [Ok (VList xs)] in
  ∃ d, (MemberGroupCollection_fetch_all (deps []) s).1 = Ok d ∧
       groups (self (MemberGroupCollection_fetch_all (deps []) s).2) = d ∧
       d !! KStr "VIP" = Some (g "VIP" 2).
Proof.
  intros g xs s.
  destruct (proj1 (fetch_all_keys_cache (deps []) s (VInt 5) xs [] eq_refl)
              eq_refl eq_refl) as [Hex Hall].
  destruct Hex as [d Hd].
  { intros x. subst xs. rewrite !elem_of_cons, elem_of_nil.
    intros [->|[->|[->|[]]]]; eexists _, _; eexists; split_and!; reflexivity. }
  exists d. destruct (Hall d Hd) as (Hg & _ & _ & Hlast).
  split_and!; [exact Hd|exact Hg|].
  apply (Hlast [g "VIP" 1] (g "VIP" 2) [g "Staff" 3]).
  - reflexivity.
  - eexists. split_and!; reflexivity.
  - intros y e' Hy%list_elem_of_singleton (kv & Hk & Hh & _). subst y.
    injection Hk as <-. discriminate.
Defined.

Lemma failed_fetch_leaves_cache_witness :
  let s := start (member (<["member_id" := VInt 5]> ∅)) [Ok VNone] in
  (MemberGroupCollection_fetch_all (deps []) s).1 = Raise TypeError ∧
  self (MemberGroupCollection_fetch_all (deps []) s).2 = self s ∧
  calls (MemberGroupCollection_fetch_all (deps []) s).2
  = [adapter_get "/members/5/groups"].
Proof.
  intros s.
  destruct (failed_fetch_leaves_cache (deps []) s (VInt 5) eq_refl)
    as (Hraise & Hnone & _ & _).
  assert ((MemberGroupCollection_fetch_all (deps []) s).1 = Raise TypeError) as Hr.
  { apply (Hnone []); reflexivity. }
  split; [exact Hr|]. exact (Hraise TypeError Hr).
Defined.


Lemma http_fixture_wired (shortcuts : list string) :
  Wired.wired HttpFixture.scripted_http (λ _, "{}") HttpFixture.account
    (HttpFixture.deps shortcuts).
Proof. intros w r. reflexivity. Defined.

Lemma update_over_requests_witness :
  let d : gmap string value :=
    <["member_id" := VInt 55]> (<["email" := VStr "a@b.com"]>
      (<["status" := VStatus Active]> ∅)) in
  let s w := HttpFixture.start (member d) w in
  ((save (HttpFixture.deps []) VNone (s [Response 404 VNone])).1 = Raise MemberUpdateError ∧
   self (save (HttpFixture.deps []) VNone (s [Response 404 VNone])).2 = member d) ∧
  (save (HttpFixture.deps []) VNone (s [Response 500 (VStr "down")])).1
    = Raise (ApiRequestFailed (Response 500 (VStr "down"))) ∧
  (save (HttpFixture.deps []) VNone (s [Response 200 (VBool true)])).1 = Ok ().
Proof.
  intros d s. split_and!.
  - destruct (update_over_requests HttpFixture.scripted_http (λ _, "{}")
                HttpFixture.account (HttpFixture.deps []) (http_fixture_wired [])
                (s [Response 404 VNone]) VNone (VInt 55) (VStr "a@b.com")
                (VStatus Active) eq_refl eq_refl eq_refl) as (_ & H404 & _ & _).
    apply H404. reflexivity.
  - destruct (update_over_requests HttpFixture.scripted_http (λ _, "{}")
                HttpFixture.account (HttpFixture.deps []) (http_fixture_wired [])
                (s [Response 404 VNone]) VNone (VInt 55) (VStr "a@b.com")
                (VStatus Active) eq_refl eq_refl eq_refl) as (Hself & _ & _ & _).
    exact Hself.
  - destruct (update_over_requests HttpFixture.scripted_http (λ _, "{}")
                HttpFixture.account (HttpFixture.deps []) (http_fixture_wired [])
                (s [Response 500 (VStr "down")]) VNone (VInt 55) (VStr "a@b.com")
                (VStatus Active) eq_refl eq_refl eq_refl) as (_ & _ & Hfail & _).
    apply Hfail; [discriminate|simpl; lia].
  - destruct (update_over_requests HttpFixture.scripted_http (λ _, "{}")
                HttpFixture.account (HttpFixture.deps []) (http_fixture_wired [])
                (s [Response 200 (VBool true)]) VNone (VInt 55) (VStr "a@b.com")
                (VStatus Active) eq_refl eq_refl eq_refl) as (_ & _ & _ & Hok).
    apply Hok. simpl. lia.
Defined.

Lemma opt_out_over_requests_witness :
  let m := member (<["email" := VStr "gone@example.com"]> ∅) in
  (opt_out (HttpFixture.deps []) (HttpFixture.start m [Response 404 VNone])).1 = Ok () ∧
  self (opt_out (HttpFixture.deps []) (HttpFixture.start m [Response 404 VNone])).2 = m.
Proof.
  intros m.
  apply (proj1 (opt_out_over_requests HttpFixture.scripted_http (λ _, "{}")
                  HttpFixture.account (HttpFixture.deps []) (http_fixture_wired [])
                  (HttpFixture.start m [Response 404 VNone]) (VStr "gone@example.com")
                  eq_refl)).
  reflexivity.
Defined.

Lemma fetch_all_over_requests_witness :
  let s := HttpFixture.start (member (<["member_id" := VInt 5]> ∅)) [Response 404 VNone] in
  (MemberGroupCollection_fetch_all (HttpFixture.deps []) s).1 = Raise TypeError ∧
  groups (self (MemberGroupCollection_fetch_all (HttpFixture.deps []) s).2) = ∅.
Proof.
  intros s.
  apply (proj1 (proj1 (fetch_all_over_requests HttpFixture.scripted_http (λ _, "{}")
                         HttpFixture.account (HttpFixture.deps []) (http_fixture_wired [])
                         s (VInt 5) eq_refl) eq_refl)).
  reflexivity.
Defined.

Lemma create_over_requests_witness :
  let m := member (<["email" := VStr "new@example.com"]> ∅) in
  let s := HttpFixture.start m [Response 404 VNone] in
  (save (HttpFixture.deps []) VNone s).1 = Raise TypeError ∧
  self (save (HttpFixture.deps []) VNone s).2 = m.
Proof.
  intros m s.
  apply (proj1 (create_over_requests HttpFixture.scripted_http (λ _, "{}")
                  HttpFixture.account (HttpFixture.deps []) (http_fixture_wired [])
                  s VNone (VStr "new@example.com") eq_refl eq_refl eq_refl)).
  reflexivity.
Defined.

Lemma tag_dates_local (fields : list string) (d d' : gmap string string) :
  HttpFixture.tag_dates fields d = Ok d' →
  ∀ k, k ∉ fields → d' !! k = d !! k.
Proof.
  intros [= <-] k. induction fields as [|f fields IH]; intros Hk; [done|].
  apply not_elem_of_cons in Hk as [Hkf Hk]. simpl.
  destruct (foldr _ d fields !! f); [|by apply IH].
  rewrite lookup_insert_ne by done. by apply IH.
Defined.

Lemma import_parse_raw_resolves_witness :
  let raw : gmap string string :=
    <["import_id" := "42"]> (<["status" := "o"]> (<["import_started" := "2012-01-01"]> ∅)) in
  ∃ d, EmmaImport._parse_raw (HttpFixture.import_factory "status:")
         (HttpFixture.import_factory "style:") HttpFixture.tag_dates raw = Ok d ∧
       d !! "status" = Some "status:o" ∧
       d !! "style" = None ∧
       d !! "import_id" = Some "42".
Proof.
  intros raw.
  destruct (import_parse_raw_resolves (HttpFixture.import_factory "status:")
              (HttpFixture.import_factory "style:") HttpFixture.tag_dates raw)
    as (d & Hd & Hs & _ & _ & Hy & Hk).
  - intros fields d. by eexists.
  - apply tag_dates_local.
  - intros c [= <-]. by eexists.
  - intros c. discriminate.
  - exists d. split_and!; [exact Hd| | |].
    + apply (Hs "o"); reflexivity.
    + apply Hy. reflexivity.
    + rewrite Hk; [reflexivity|].
      rewrite !not_elem_of_cons. split_and!; [done|done|done|done|apply not_elem_of_nil].
Defined.

End MoreScenarios.

(** * The answer to a create call, when keys are missing *)

Section CreateAnswerFacts.
Import Member.
Context {W : Type}.
Variable deps : Deps W.


End CreateAnswerFacts.

Section LastScenarios.
Import Member Fixture.


(** C9, the failing input: a member with a [member_id] and no status
    field.  [get_opt_out_detail] neither returns the empty result nor asks
    the server: reading the status raises [KeyError] and no call is
    issued, where the sibling [has_opted_out] meets the same member with
    [NoMemberStatusError]. *)
Theorem get_opt_out_detail_without_status :
  let s := start (member (<["member_id" := VInt 123]>
                            (<["email" := VStr "a@b.com"]> ∅))) [Ok (VList [])] in
  get_opt_out_detail (deps []) s = (Raise (KeyError "status"), s) ∧
  has_opted_out s = (Raise NoMemberStatusError, s).
Proof. split; reflexivity. Qed.

End LastScenarios.
